(** * CPU tracker leader: peer aggregation and rolling history

    A shallow embedding of [main.py]: the peer enumerator
    ([network_participants]), the staleness filter ([is_updated]), the
    network aggregator ([get_network_cpu_mean]), the rolling history
    store ([truncate_file]), the mover of the static assets
    ([copy_html_files]) and the script that runs them in turn, with the
    properties of the design document stated and proved over it, followed
    by further properties of the code.

    Modelling conventions.
    - Python exceptions are values of [exn]; a computation that may raise
      returns a [result].
    - Python [float] is IEEE binary64, that is Rocq's primitive [float];
      Python [int] is [Z].
    - A file is identified with what opening it and [json.load] make of
      it ([content]); the file system is a tree of directories ([node]).
      A directory has a read bit and a search bit, a file can be
      unreadable; symbolic links are not modelled. What the program may
      write is not read off the tree: it is an input.
    - The wall clock, the behaviour of the disk during a write and the
      refusals of the operating system to rename a file are inputs of the
      functions that use them.
    - The library functions are those of CPython 3.11 on Linux: [pathlib]
      lets a [PermissionError] of [stat] through, [strftime] is the C
      library's, [os.rename] is the POSIX one. *)

From Stdlib Require Import ZArith Floats Ascii String.
From stdpp Require Import base list strings.

Set Warnings "-register-all".

Local Open Scope Z_scope.

(** ** Exceptions and results *)

Inductive exn :=
| KeyError | ValueError | TypeError | AttributeError | OverflowError
| JSONDecodeError | UnicodeDecodeError | RecursionError
| FileNotFoundError | NotADirectoryError | IsADirectoryError
| PermissionError | OSError.

Inductive result (A : Type) :=
| Ok (a : A)
| Raise (e : exn).
Arguments Ok {A} a.
Arguments Raise {A} e.

Definition rbind {A B} (m : result A) (k : A -> result B) : result B :=
  match m with
  | Ok a => k a
  | Raise e => Raise e
  end.

Notation "'let?' x := m 'in' k" := (rbind m (fun x => k))
  (at level 10, x name, m at level 100, k at level 200).

(** ** JSON values as Python objects *)

(** A Python number: [json.load] yields an [int] for an integer literal and
    a [float] otherwise, and [json.dump] prints them differently. *)
Inductive number :=
| Int (z : Z)
| Float (f : float).

(** The object [json.load] returns.  A [JObj] lists the items of a [dict]
    in insertion order; its keys are looked up first match first. *)
Inductive json :=
| JNull
| JBool (b : bool)
| JNum (n : number)
| JStr (s : string)
| JArr (l : list json)
| JObj (kvs : list (string * json)).

Fixpoint assoc {A} (k : string) (kvs : list (string * A)) : option A :=
  match kvs with
  | [] => None
  | (k', v) :: rest => if String.eqb k k' then Some v else assoc k rest
  end.

(** [needle in haystack] on two [str]: substring search. *)
Fixpoint str_contains (needle haystack : string) : bool :=
  String.prefix needle haystack ||
  match haystack with
  | EmptyString => false
  | String _ rest => str_contains needle rest
  end.

Definition is_str (k : string) (v : json) : bool :=
  match v with
  | JStr s => String.eqb k s
  | _ => false
  end.

(** [key in v]: key membership on a [dict], element membership on a
    [list], substring on a [str]; the other JSON values are not iterable. *)
Definition py_contains (key : string) (v : json) : result bool :=
  match v with
  | JObj kvs => Ok (bool_decide (is_Some (assoc key kvs)))
  | JArr l => Ok (existsb (is_str key) l)
  | JStr s => Ok (str_contains key s)
  | JNull | JBool _ | JNum _ => Raise TypeError
  end.

(** [v[key]] with a [str] key. *)
Definition py_getitem (v : json) (key : string) : result json :=
  match v with
  | JObj kvs =>
      match assoc key kvs with
      | Some x => Ok x
      | None => Raise KeyError
      end
  | _ => Raise TypeError
  end.

(** ** Floating point conversions *)

(** [float(z)] for a Python [int]: round to nearest even; an [int] beyond
    the range of binary64 raises [OverflowError]. *)
Definition float_of_Z (z : Z) : float :=
  SF2Prim (binary_normalize prec emax z 0 false).

Definition float_of_int (z : Z) : result float :=
  let f := float_of_Z z in
  if PrimFloat.is_infinity f then Raise OverflowError else Ok f.

Section Coercion.

(** [float(s)] on a [str] (decimal literals, exponents, [inf], [nan],
    correctly rounded) is the Python runtime's; it is taken as given. *)
Variable float_of_str : string -> option float.

(** [float(v)] on the value of a JSON field. *)
Definition py_float (v : json) : result float :=
  match v with
  | JNum (Float f) => Ok f
  | JNum (Int z) => float_of_int z
  | JBool b => Ok (if b then 1%float else 0%float)
  | JStr s =>
      match float_of_str s with
      | Some f => Ok f
      | None => Raise ValueError
      end
  | JNull | JArr _ | JObj _ => Raise TypeError
  end.

End Coercion.

(** ** The file system *)

(** What opening a file and reading it as JSON gives. *)
Inductive content :=
| Unreadable    (* a file that may not be read *)
| NotText       (* bytes that are not text in the encoding in use *)
| NotJson       (* text that is not a JSON document: empty, cut short, ... *)
| TooLong       (* a document with an integer of more digits than [int] takes *)
| TooDeep       (* a document nested deeper than the interpreter recurses *)
| Json (v : json).

(** A directory that may be searched is a [Dir]. A directory that may not
    (no [x] bit) is [Locked]: its names can still be listed when it is
    readable, but nothing in it can be reached, so that what it holds is
    left out. *)
Inductive node :=
| File (c : content)
| Dir (readable : bool) (entries : list (string * node))
| Locked (readable : bool) (names : list string).

(** A path is the list of its components below the root of the tree. *)
Definition path := list string.

(** Where the resolution of [p] ends: at the node [p] names, at nothing
    when a name is missing or a file is in the way, or at the locked
    directory that bars the way. *)
Fixpoint lookup_path (fs : node) (p : path) : option node :=
  match p with
  | [] => Some fs
  | name :: p' =>
      match fs with
      | Dir _ entries =>
          match assoc name entries with
          | Some child => lookup_path child p'
          | None => None
          end
      | File _ => None
      | Locked _ _ => Some fs
      end
  end.

(** Whether a locked directory bars the way to [p]. *)
Fixpoint barred (fs : node) (p : path) : bool :=
  match p with
  | [] => false
  | name :: p' =>
      match fs with
      | Dir _ entries =>
          match assoc name entries with
          | Some child => barred child p'
          | None => false
          end
      | File _ => false
      | Locked _ _ => true
      end
  end.

(** Whether a file is in the way to [p]: what is missing is then reported
    as [NotADirectoryError], and as [FileNotFoundError] otherwise. *)
Fixpoint through_file (fs : node) (p : path) : bool :=
  match p with
  | [] => false
  | name :: p' =>
      match fs with
      | Dir _ entries =>
          match assoc name entries with
          | Some child => through_file child p'
          | None => false
          end
      | File _ => true
      | Locked _ _ => false
      end
  end.

Definition absent_error (fs : node) (p : path) : exn :=
  if through_file fs p then NotADirectoryError else FileNotFoundError.

(** [os.stat(p)] as [pathlib] uses it: what is at [p], nothing when the
    error is one that [pathlib] takes for absence ([ENOENT], [ENOTDIR]),
    and [PermissionError] when a directory on the way may not be
    searched. *)
Definition resolve (fs : node) (p : path) : result (option node) :=
  if barred fs p then Raise PermissionError else Ok (lookup_path fs p).

(** [Path.exists()], [Path.is_dir()] and [Path.is_file()]. *)
Definition path_exists (fs : node) (p : path) : result bool :=
  let? found := resolve fs p in
  Ok (bool_decide (is_Some found)).

Definition is_dir (fs : node) (p : path) : result bool :=
  let? found := resolve fs p in
  Ok (match found with
      | Some (Dir _ _) | Some (Locked _ _) => true
      | _ => false
      end).

Definition is_file (fs : node) (p : path) : result bool :=
  let? found := resolve fs p in
  Ok (match found with
      | Some (File _) => true
      | _ => false
      end).

(** [os.listdir(p)]. *)
Definition listdir (fs : node) (p : path) : result (list string) :=
  let? found := resolve fs p in
  match found with
  | None => Raise (absent_error fs p)
  | Some (File _) => Raise NotADirectoryError
  | Some (Dir false _) | Some (Locked false _) => Raise PermissionError
  | Some (Dir true entries) => Ok (entries.*1)
  | Some (Locked true names) => Ok names
  end.

(** [open(p, "r")]; what [json.load] makes of the file comes with it. *)
Definition open_r (fs : node) (p : path) : result content :=
  let? found := resolve fs p in
  match found with
  | None => Raise (absent_error fs p)
  | Some (Dir _ _) | Some (Locked _ _) => Raise IsADirectoryError
  | Some (File Unreadable) => Raise PermissionError
  | Some (File c) => Ok c
  end.

(** [json.load(f)]. Undecodable bytes raise [UnicodeDecodeError], an
    integer beyond the digit limit raises [ValueError] and a nesting beyond
    the recursion limit raises [RecursionError]; none of them is a
    [JSONDecodeError]. (An unreadable file is never loaded: [open] has
    raised.) *)
Definition json_load (c : content) : result json :=
  match c with
  | Unreadable => Raise PermissionError
  | NotText => Raise UnicodeDecodeError
  | NotJson => Raise JSONDecodeError
  | TooLong => Raise ValueError
  | TooDeep => Raise RecursionError
  | Json v => Ok v
  end.

Fixpoint replace_entry {A} (k : string) (v : A) (kvs : list (string * A))
  : list (string * A) :=
  match kvs with
  | [] => []
  | (k', v') :: rest =>
      if String.eqb k k' then (k, v) :: rest
      else (k', v') :: replace_entry k v rest
  end.

(** The tree in which the file at [p] holds [c]: the file is created when
    its directory exists, and replaced when it is already there. *)
Fixpoint write_path (fs : node) (p : path) (c : content) : result node :=
  match p with
  | [] =>
      match fs with
      | File _ => Ok (File c)
      | Dir _ _ | Locked _ _ => Raise IsADirectoryError
      end
  | name :: p' =>
      match fs with
      | File _ => Raise NotADirectoryError
      | Locked _ _ => Raise PermissionError
      | Dir r entries =>
          match assoc name entries with
          | Some child =>
              let? child' := write_path child p' c in
              Ok (Dir r (replace_entry name child' entries))
          | None =>
              match p' with
              | [] => Ok (Dir r (entries ++ [(name, File c)]))
              | _ :: _ => Raise FileNotFoundError
              end
          end
      end
  end.

(** ** Dates and times *)

(** A naive [datetime]. *)
Record datetime := DateTime {
  year : Z; month : Z; day : Z;
  hour : Z; minute : Z; second : Z; microsecond : Z
}.

Definition is_leap (y : Z) : bool :=
  (y mod 4 =? 0) && (negb (y mod 100 =? 0) || (y mod 400 =? 0)).

Definition days_in_month (y m : Z) : Z :=
  if (m =? 2) && is_leap y then 29
  else nth (Z.to_nat m) [0; 31; 28; 31; 30; 31; 30; 31; 31; 30; 31; 30; 31] 0.

Definition days_before_year (y : Z) : Z :=
  let y := y - 1 in
  y * 365 + y / 4 - y / 100 + y / 400.

Definition days_before_month (y m : Z) : Z :=
  nth (Z.to_nat m) [0; 0; 31; 59; 90; 120; 151; 181; 212; 243; 273; 304; 334] 0
  + (if (2 <? m) && is_leap y then 1 else 0).

(** [date.toordinal()]: 1 for 0001-01-01. *)
Definition toordinal (d : datetime) : Z :=
  days_before_year (year d) + days_before_month (year d) (month d) + day d.

(** A [timedelta], as its total number of microseconds. *)
Definition timedelta := Z.

Definition timedelta_minutes (n : Z) : timedelta := n * 60 * 1000000.
Definition timedelta_seconds (n : Z) : timedelta := n * 1000000.

(** [a - b] on two naive datetimes. *)
Definition datetime_sub (a b : datetime) : timedelta :=
  ((toordinal a - toordinal b) * 86400
   + ((second a + minute a * 60 + hour a * 3600)
      - (second b + minute b * 60 + hour b * 3600))) * 1000000
  + (microsecond a - microsecond b).

(** The constructor's range checks ([ValueError] otherwise). *)
Definition valid_datetime (d : datetime) : bool :=
  (1 <=? year d) && (year d <=? 9999)
  && (1 <=? month d) && (month d <=? 12)
  && (1 <=? day d) && (day d <=? days_in_month (year d) (month d))
  && (0 <=? hour d) && (hour d <=? 23)
  && (0 <=? minute d) && (minute d <=? 59)
  && (0 <=? second d) && (second d <=? 59)
  && (0 <=? microsecond d) && (microsecond d <=? 999999).

(** *** [datetime.strptime(s, "%Y-%m-%d %H:%M:%S")] on ASCII text

    The format compiles to the regular expression
    [(\d\d\d\d)-(1[0-2]|0[1-9]|[1-9])-(3[0-1]|[1-2]\d|0[1-9]|[1-9]| [1-9])\s+
     (2[0-3]|[0-1]\d|\d):([0-5]\d|\d):(6[0-1]|[0-5]\d|\d)]
    which must match the whole string; the fields then go through the
    [datetime] constructor. Between two separators a field is a run of
    digits, so the match is decided field by field.

    On a [str], [\d] and [\s] also match the decimal digits and the
    spaces of Unicode beyond ASCII. They are not modelled: [strptime] below
    is the library function on strings of ASCII characters ([ascii_only]),
    and every string it accepts is one. *)

Definition ascii_only (s : string) : bool :=
  forallb (fun c => (nat_of_ascii c <? 128)%nat) (list_ascii_of_string s).

Definition is_digit (c : ascii) : bool :=
  let n := Z.of_nat (nat_of_ascii c) in (48 <=? n) && (n <=? 57).

Definition digit_value (c : ascii) : Z := Z.of_nat (nat_of_ascii c) - 48.

(** [\s] on ASCII: tab to carriage return, the four separators, space. *)
Definition is_space (c : ascii) : bool :=
  let n := Z.of_nat (nat_of_ascii c) in
  ((9 <=? n) && (n <=? 13)) || ((28 <=? n) && (n <=? 31)) || (n =? 32).

(** The leading run of digits of [s] (read as a number, with its length)
    and what follows it. *)
Fixpoint digits (acc : Z) (len : nat) (s : string) : Z * nat * string :=
  match s with
  | String c rest =>
      if is_digit c then digits (10 * acc + digit_value c) (S len) rest
      else (acc, len, s)
  | EmptyString => (acc, len, s)
  end.

(** A field of one or two digits with value in [lo..hi]. *)
Definition field (lo hi : Z) (s : string) : option (Z * string) :=
  let '(v, len, rest) := digits 0 0 s in
  if ((len =? 1)%nat || (len =? 2)%nat) && (lo <=? v) && (v <=? hi)
  then Some (v, rest) else None.

(** [\d\d\d\d]. *)
Definition year_field (s : string) : option (Z * string) :=
  match s with
  | String a (String b (String c (String d rest))) =>
      if is_digit a && is_digit b && is_digit c && is_digit d
      then Some (1000 * digit_value a + 100 * digit_value b
                 + 10 * digit_value c + digit_value d, rest)
      else None
  | _ => None
  end.

(** The day also matches as a space followed by one digit from 1 to 9. *)
Definition day_field (s : string) : option (Z * string) :=
  match s with
  | String " " (String c rest) =>
      if is_digit c && (1 <=? digit_value c) then Some (digit_value c, rest)
      else None
  | _ => field 1 31 s
  end.

Definition literal (c : ascii) (s : string) : option string :=
  match s with
  | String c' rest => if Ascii.eqb c c' then Some rest else None
  | EmptyString => None
  end.

Fixpoint skip_spaces (s : string) : string :=
  match s with
  | String c rest => if is_space c then skip_spaces rest else s
  | EmptyString => s
  end.

(** [\s+]. *)
Definition spaces1 (s : string) : option string :=
  match s with
  | String c rest => if is_space c then Some (skip_spaces rest) else None
  | EmptyString => None
  end.

Definition strptime (s : string) : option datetime :=
  '(yr, s) ← year_field s;
  s ← literal "-" s;
  '(mo, s) ← field 1 12 s;
  s ← literal "-" s;
  '(dy, s) ← day_field s;
  s ← spaces1 s;
  '(hr, s) ← field 0 23 s;
  s ← literal ":" s;
  '(mi, s) ← field 0 59 s;
  s ← literal ":" s;
  '(sc, s) ← field 0 61 s;
  match s with
  | EmptyString =>
      let dt := DateTime yr mo dy hr mi sc 0 in
      if valid_datetime dt then Some dt else None
  | String _ _ => None
  end.

(** A field ends where [s] starts. *)
Definition no_digit_ahead (s : string) : bool :=
  match s with
  | String c _ => negb (is_digit c)
  | EmptyString => true
  end.

(** The timestamp format has no place for the microseconds. *)
Definition on_the_second (d : datetime) : datetime :=
  DateTime (year d) (month d) (day d) (hour d) (minute d) (second d) 0.

(** *** [strftime("%Y-%m-%d %H:%M:%S")] *)

Definition digit_char (n : Z) : ascii := ascii_of_nat (Z.to_nat (48 + n mod 10)).

Definition pad2 (n : Z) : string :=
  String (digit_char (n / 10)) (String (digit_char n) EmptyString).

Definition pad4 (n : Z) : string :=
  String (digit_char (n / 1000)) (String (digit_char (n / 100)) (pad2 n)).

(** [%Y] as the C library of Linux writes it: the year in decimal, not
    padded, so with four digits from the year 1000 on only. *)
Definition year_text (y : Z) : string :=
  if y <? 10 then String (digit_char y) EmptyString
  else if y <? 100 then pad2 y
  else if y <? 1000 then String (digit_char (y / 100)) (pad2 y)
  else pad4 y.

Definition strftime (d : datetime) : string :=
  (year_text (year d) ++ "-" ++ pad2 (month d) ++ "-" ++ pad2 (day d) ++ " "
   ++ pad2 (hour d) ++ ":" ++ pad2 (minute d) ++ ":" ++ pad2 (second d))%string.

(** ** The staleness filter *)

(** [is_updated(timestamp)], with the reading [current_time] of
    [datetime.now()] as an input. A string that does not parse raises
    [ValueError]. *)
Definition is_updated (current_time : datetime) (timestamp : string)
  : result bool :=
  match strptime timestamp with
  | None => Raise ValueError
  | Some data_timestamp =>
      let time_diff := datetime_sub current_time data_timestamp in
      Ok (time_diff <? timedelta_minutes 1)
  end.

(** ** The peer enumerator *)

(** The loop of [network_participants]: [users] grows by the entries that
    are directories, in listing order. [Path.is_dir()] is not guarded. *)
Fixpoint collect_dirs (fs : node) (datasite_path : path)
    (entries users : list string) : result (list string) :=
  match entries with
  | [] => Ok users
  | entry :: rest =>
      let? dir := is_dir fs (datasite_path ++ [entry]) in
      if dir : bool
      then collect_dirs fs datasite_path rest (users ++ [entry])
      else collect_dirs fs datasite_path rest users
  end.

Definition network_participants (fs : node) (datasite_path : path)
  : result (list string) :=
  let? entries := listdir fs datasite_path in
  collect_dirs fs datasite_path entries [].

(** ** The network aggregator *)

(** The three accumulators of [get_network_cpu_mean]. [aggregated_usage]
    starts as the [int] 0 and is a [float] from the first addition on;
    since [0 + x] is computed as [0.0 + x], it is kept as a [float]. *)
Record tally := Tally {
  aggregated_usage : float;
  aggregated_peers : Z;
  active_peers : list string
}.

Definition tracker_file (datasites_path : path) (peer : string) : path :=
  datasites_path ++ [peer; "api_data"; "cpu_tracker"; "cpu_tracker.json"].

Section Aggregator.

Variable float_of_str : string -> option float.

(** One iteration of the loop over [peers]; [now] is what
    [datetime.now()] reads during it. Only [JSONDecodeError] is caught. *)
Definition visit_peer (fs : node) (datasites_path : path) (now : datetime)
    (st : tally) (peer : string) : result tally :=
  let tracker := tracker_file datasites_path peer in
  let? there := path_exists fs tracker in
  if negb there then Ok st
  else
    let? c := open_r fs tracker in
    match json_load c with
    | Raise JSONDecodeError => Ok st
    | Raise e => Raise e
    | Ok peer_data =>
        let? has_timestamp := py_contains "timestamp" peer_data in
        let? updated :=
          (if has_timestamp : bool then
             let? timestamp := py_getitem peer_data "timestamp" in
             match timestamp with
             | JStr s => is_updated now s
             | _ => Raise TypeError      (* strptime wants a str *)
             end
           else Ok false) in
        if updated : bool then
          let? cpu := py_getitem peer_data "cpu" in
          let? x := py_float float_of_str cpu in
          Ok (Tally (aggregated_usage st + x)%float
                    (aggregated_peers st + 1)
                    (active_peers st ++ [peer]))
        else Ok st
    end.

(** The loop; [clock i] is the clock during iteration [i]. *)
Fixpoint for_each_peer (clock : nat -> datetime) (fs : node)
    (datasites_path : path) (i : nat) (peers : list string) (st : tally)
  : result tally :=
  match peers with
  | [] => Ok st
  | peer :: rest =>
      let? st' := visit_peer fs datasites_path (clock i) st peer in
      for_each_peer clock fs datasites_path (S i) rest st'
  end.

Definition get_network_cpu_mean (clock : nat -> datetime) (fs : node)
    (datasites_path : path) (peers : list string)
  : result (number * list string) :=
  let? st := for_each_peer clock fs datasites_path 0 peers (Tally 0 0 []) in
  let cpu_usage_mean :=
    if 0 <? aggregated_peers st
    then Float (aggregated_usage st / float_of_Z (aggregated_peers st))%float
    else Int (-1) in
  Ok (cpu_usage_mean, active_peers st).

End Aggregator.

(** ** The rolling history store *)

(** What the disk does to a write: it goes through, the file cannot be
    opened for writing, or the device fails once the file is open. *)
Inductive disk := Healthy | Denied | Full.

(** [l[start:]]. *)
Definition py_slice_from {A} (start : Z) (l : list A) : list A :=
  let n := Z.of_nat (length l) in
  let s := if start <? 0 then Z.max (start + n) 0 else Z.min start n in
  drop (Z.to_nat s) l.

Definition sample_entry (new_sample : number) (timestamp_str : string) : json :=
  JObj [("cpu", JNum new_sample); ("timestamp", JStr timestamp_str)].

Definition history_document (history : list json) (peers : list string) : json :=
  JObj [("items", JArr history); ("peers", JArr (JStr <$> peers))].

(** [with open(p, "w") as f: json.dump(doc, f)]. Opening creates the file
    or empties it; a failure after that leaves what was written so far,
    which is not a JSON document. *)
Definition open_w_dump (d : disk) (fs : node) (p : path) (doc : json)
  : node * result unit :=
  match d with
  | Denied => (fs, Raise PermissionError)
  | Healthy | Full =>
      match write_path fs p NotJson with
      | Raise e => (fs, Raise e)
      | Ok opened =>
          match d with
          | Full => (opened, Raise OSError)
          | _ =>
              match write_path opened p (Json doc) with
              | Ok written => (written, Ok ())
              | Raise e => (opened, Raise e)
              end
          end
      end
  end.

Arguments open_w_dump : simpl never.

(** [truncate_file]; [now_utc] is the reading of [datetime.now(UTC)]. *)
Definition truncate_file (now_utc : datetime) (d : disk) (fs : node)
    (file_path : path) (max_items : Z) (new_sample : number)
    (peers : list string) : node * result unit :=
  let timestamp_str := strftime now_utc in
  let loaded : result (list json) :=
    let? there := path_exists fs file_path in
    if there : bool then
      let? c := open_r fs file_path in
      let? historical_data := json_load c in
      let? items := py_getitem historical_data "items" in
      match items with
      | JArr history =>
          let history := history ++ [sample_entry new_sample timestamp_str] in
          if Z.of_nat (length history) >? max_items
          then Ok (py_slice_from (- max_items) history)
          else Ok history
      | _ => Raise AttributeError          (* no [append] *)
      end
    else Ok [sample_entry new_sample timestamp_str] in
  match loaded with
  | Raise e => (fs, Raise e)
  | Ok history => open_w_dump d fs file_path (history_document history peers)
  end.

(** One write of a run: the clock, the sample and the active peers. *)
Record write_request := WriteRequest {
  written_at : datetime;
  sample : number;
  peers_then : list string
}.

(** Successive runs of [truncate_file] on a healthy disk. *)
Fixpoint write_all (fs : node) (file_path : path) (max_items : Z)
    (reqs : list write_request) : node * result unit :=
  match reqs with
  | [] => (fs, Ok ())
  | r :: rest =>
      match truncate_file (written_at r) Healthy fs file_path max_items
                          (sample r) (peers_then r) with
      | (fs', Ok _) => write_all fs' file_path max_items rest
      | (fs', Raise e) => (fs', Raise e)
      end
  end.

Definition entry_of (r : write_request) : json :=
  sample_entry (sample r) (strftime (written_at r)).

(** The [items] and the [peers] of the history file, when it holds a
    history document. *)
Definition persisted (fs : node) (file_path : path)
  : option (list json * list json) :=
  match lookup_path fs file_path with
  | Some (File (Json (JObj [("items", JArr items); ("peers", JArr peers)]))) =>
      Some (items, peers)
  | _ => None
  end.

(** ** Moving the static assets *)

(** A fresh chain of directories, one inside the other. *)
Fixpoint new_dirs (p : path) : node :=
  match p with
  | [] => Dir true []
  | name :: p' => Dir true [(name, new_dirs p')]
  end.

(** [Path(p).mkdir(parents=True)]: the missing directories of [p] are
    created below the deepest one that exists; a file on the way raises
    [NotADirectoryError], a locked directory [PermissionError], and a path
    that is already there raises [FileExistsError], which is an
    [OSError]. *)
Fixpoint mkdir_parents (fs : node) (p : path) : result node :=
  match p with
  | [] => Raise OSError
  | name :: p' =>
      match fs with
      | File _ => Raise NotADirectoryError
      | Locked _ _ => Raise PermissionError
      | Dir r entries =>
          match assoc name entries with
          | Some child =>
              let? child' := mkdir_parents child p' in
              Ok (Dir r (replace_entry name child' entries))
          | None => Ok (Dir r (entries ++ [(name, new_dirs p')]))
          end
      end
  end.

Fixpoint remove_entry {A} (k : string) (kvs : list (string * A))
  : list (string * A) :=
  match kvs with
  | [] => []
  | (k', v) :: rest =>
      if String.eqb k k' then remove_entry k rest
      else (k', v) :: remove_entry k rest
  end.

(** The tree without the entry at [p]. *)
Fixpoint remove_path (fs : node) (p : path) : node :=
  match p with
  | [] => fs
  | name :: p' =>
      match fs with
      | File _ | Locked _ _ => fs
      | Dir r entries =>
          match p' with
          | [] => Dir r (remove_entry name entries)
          | _ :: _ =>
              match assoc name entries with
              | Some child =>
                  Dir r (replace_entry name (remove_path child p') entries)
              | None => fs
              end
          end
      end
  end.

(** What the operating system has against renaming one path to another,
    for reasons that are not in the tree: the two are on different file
    systems ([OSError]), a directory may not be written to
    ([PermissionError]), the file system is read-only, ... *)
Definition refusals : Type := path -> path -> option exn.

(** [os.rename(src, dst)] for a regular file [src] holding [c], as POSIX
    has it: when the system does not refuse, renaming a file to itself
    does nothing, a file at [dst] is replaced, and a directory at [dst]
    refuses the file. *)
Definition rename_file (refused : refusals) (fs : node) (c : content)
    (src dst : path) : result node :=
  match refused src dst with
  | Some e => Raise e
  | None =>
      if bool_decide (src = dst) then Ok fs
      else if barred fs dst then Raise PermissionError
      else
        match lookup_path fs dst with
        | Some (Dir _ _) | Some (Locked _ _) => Raise IsADirectoryError
        | _ =>
            let? fs' := write_path fs dst c in
            Ok (remove_path fs' src)
        end
  end.

(** A line printed by [copy_html_files]: the item, the target and the
    exception. *)
Definition complaint : Type := path * path * exn.

(** One iteration of the loop of [copy_html_files]: a regular file is
    moved; an exception of [os.rename] is caught and printed, one of
    [Path.is_file()] is not. *)
Definition move_item (refused : refusals) (fs : node)
    (source destination : path) (name : string)
  : result (node * list complaint) :=
  let item := source ++ [name] in
  let? file := is_file fs item in
  if file : bool then
    match lookup_path fs item with
    | Some (File c) =>
        let target := destination ++ [name] in
        match rename_file refused fs c item target with
        | Ok fs' => Ok (fs', [])
        | Raise e => Ok (fs, [(item, target, e)])
        end
    | _ => Ok (fs, [])
    end
  else Ok (fs, []).

Fixpoint move_items (refused : refusals) (fs : node)
    (source destination : path) (names : list string)
  : node * result (list complaint) :=
  match names with
  | [] => (fs, Ok [])
  | name :: rest =>
      match move_item refused fs source destination name with
      | Raise e => (fs, Raise e)
      | Ok (fs1, printed1) =>
          match move_items refused fs1 source destination rest with
          | (fs2, Ok printed2) => (fs2, Ok (printed1 ++ printed2))
          | (fs2, Raise e) => (fs2, Raise e)
          end
      end
  end.

(** [copy_html_files(source, destination)]; what it prints is returned. *)
Definition copy_html_files (refused : refusals) (fs : node)
    (source destination : path) : node * result (list complaint) :=
  match is_dir fs source with
  | Raise e => (fs, Raise e)
  | Ok false => (fs, Raise ValueError)
  | Ok true =>
      let prepared : result node :=
        let? there := path_exists fs destination in
        if negb there then mkdir_parents fs destination
        else
          let? dir := is_dir fs destination in
          if negb dir then Raise ValueError else Ok fs in
      match prepared with
      | Raise e => (fs, Raise e)
      | Ok fs1 =>
          match listdir fs1 source with
          | Raise e => (fs1, Raise e)
          | Ok names => move_items refused fs1 source destination names
          end
      end
  end.

(** Two readings of a path agree on what is there: nothing, a file with
    the same contents, or a directory of the same kind. *)
Definition same_entry (a b : option node) : Prop :=
  match a, b with
  | None, None => True
  | Some (File c1), Some (File c2) => c1 = c2
  | Some (Dir _ _), Some (Dir _ _) => True
  | Some (Locked _ _), Some (Locked _ _) => True
  | _, _ => False
  end.

(** ** The script *)

(** [Path.parent]. *)
Definition parent (p : path) : path := removelast p.

Section Script.

Variable float_of_str : string -> option float.

(** The body of the module run as a script. [datasite_path] is what
    [Client.load()] reports and [assets] is where [./assets] is; the
    refusals, the clocks and the disk are as for the functions called. *)
Definition main (refused : refusals) (clock : nat -> datetime)
    (now_utc : datetime) (d : disk) (fs : node) (assets datasite_path : path)
  : node * result unit :=
  match copy_html_files refused fs assets (datasite_path ++ ["public"]) with
  | (fs1, Raise e) => (fs1, Raise e)
  | (fs1, Ok _) =>
      match network_participants fs1 (parent datasite_path) with
      | Raise e => (fs1, Raise e)
      | Ok peers =>
          match get_network_cpu_mean float_of_str clock fs1
                  (parent datasite_path) peers with
          | Raise e => (fs1, Raise e)
          | Ok (cpu_mean, active_peers) =>
              truncate_file now_utc d fs1
                (datasite_path ++ ["public"; "cpu_tracker.json"]) 360
                cpu_mean active_peers
          end
      end
  end.

End Script.

(** ** Specification-level notions *)



(** What a peer is to one aggregation run. *)
Inductive peer_view :=
| Contributes (cpu : float)
| Skipped.

Definition reading (v : peer_view) : option float :=
  match v with
  | Contributes x => Some x
  | Skipped => None
  end.

(** The peers whose view is a contribution, in order. *)
Fixpoint contributors (peers : list string) (views : list peer_view)
  : list string :=
  match peers, views with
  | p :: ps, Contributes _ :: vs => p :: contributors ps vs
  | _ :: ps, Skipped :: vs => contributors ps vs
  | _, _ => []
  end.

(** The sum of the readings, added in order from zero, and their mean;
    [-1] stands for no reading. *)
Definition fsum (xs : list float) : float := foldl PrimFloat.add 0%float xs.

Definition mean_of (xs : list float) : number :=
  match xs with
  | [] => Int (-1)
  | _ :: _ => Float (fsum xs / float_of_Z (Z.of_nat (length xs)))%float
  end.

Section Views.

Variable float_of_str : string -> option float.
Variables (fs : node) (datasites_path : path).

(** Steps 2 to 6 of the aggregation, peer by peer: an absent file, text
    that is not JSON, an object without [timestamp] and a stale timestamp
    are skipped; a fresh timestamp with a [cpu] that converts
    contributes. *)
Inductive peer_status (now : datetime) (peer : string) : peer_view -> Prop :=
| status_absent :
    lookup_path fs (tracker_file datasites_path peer) = None ->
    peer_status now peer Skipped
| status_invalid_json :
    lookup_path fs (tracker_file datasites_path peer) = Some (File NotJson) ->
    peer_status now peer Skipped
| status_no_timestamp kvs :
    lookup_path fs (tracker_file datasites_path peer)
      = Some (File (Json (JObj kvs))) ->
    assoc "timestamp" kvs = None ->
    peer_status now peer Skipped
| status_stale kvs s ts :
    lookup_path fs (tracker_file datasites_path peer)
      = Some (File (Json (JObj kvs))) ->
    assoc "timestamp" kvs = Some (JStr s) ->
    strptime s = Some ts ->
    timedelta_seconds 60 <= datetime_sub now ts ->
    peer_status now peer Skipped
| status_fresh kvs s ts v x :
    lookup_path fs (tracker_file datasites_path peer)
      = Some (File (Json (JObj kvs))) ->
    assoc "timestamp" kvs = Some (JStr s) ->
    strptime s = Some ts ->
    datetime_sub now ts < timedelta_seconds 60 ->
    assoc "cpu" kvs = Some v ->
    py_float float_of_str v = Ok x ->
    peer_status now peer (Contributes x).

(** The peers from iteration [i] on, each under the clock of its own
    iteration. *)
Inductive classified (clock : nat -> datetime)
  : nat -> list string -> list peer_view -> Prop :=
| classified_nil i : classified clock i [] []
| classified_cons i p v ps vs :
    peer_status (clock i) p v ->
    classified clock (S i) ps vs ->
    classified clock i (p :: ps) (v :: vs).

(** The [cpu] field of a peer's telemetry file, as a [float]. *)
Definition peer_cpu (peer : string) : result float :=
  let? c := open_r fs (tracker_file datasites_path peer) in
  let? peer_data := json_load c in
  let? cpu := py_getitem peer_data "cpu" in
  py_float float_of_str cpu.

End Views.

(** The tally after a peer that contributes [x], and after a peer seen as
    [v]. *)
Definition credited (st : tally) (peer : string) (x : float) : tally :=
  Tally (aggregated_usage st + x)%float (aggregated_peers st + 1)
        (active_peers st ++ [peer]).

Definition after_view (st : tally) (peer : string) (v : peer_view) : tally :=
  match v with
  | Contributes x => credited st peer x
  | Skipped => st
  end.

(** The last [n] elements of a list. *)
Definition lastn {A} (n : nat) (l : list A) : list A :=
  drop (length l - n) l.

(** The peers on record after the writes [reqs], [peers0] being on record
    before them. *)
Definition peers_after (peers0 : list string) (reqs : list write_request)
  : list string :=
  foldl (fun _ r => peers_then r) peers0 reqs.

(** The clock of a run from which iteration [k] is left out. *)
Definition skip_tick (k : nat) (clock : nat -> datetime) : nat -> datetime :=
  fun j => if (j <? k)%nat then clock j else clock (S j).

(** ** Test fixtures *)

Module Fixtures.

Definition telemetry (c : content) : node :=
  Dir true [("api_data",
    Dir true [("cpu_tracker", Dir true [("cpu_tracker.json", File c)])])].

Definition record (cpu : json) (timestamp : string) : content :=
  Json (JObj [("cpu", cpu); ("timestamp", JStr timestamp)]).

Definition noon : datetime := DateTime 2024 10 5 12 0 30 0.
Definition at_noon : nat -> datetime := fun _ => noon.

(** [float()] of a string is not exercised by the fixtures. *)
Definition no_strings : string -> option float := fun _ => None.

(** Three peers: A and C fresh at [noon], B cut short while being
    written; and a stray file next to them. *)
Definition datasites : node :=
  Dir true [("datasites", Dir true [
    ("A", telemetry (record (JNum (Int 10)) "2024-10-05 12:00:00"));
    ("B", telemetry NotJson);
    ("notes.txt", File NotJson);
    ("C", telemetry (record (JNum (Float 20)) "2024-10-05 12:00:10"))])].

(** The same with B replaced: by a peer whose timestamp is not a date, by
    a fresh peer without [cpu], by a file that does not load. *)
Definition datasites_with (b : content) : node :=
  Dir true [("datasites", Dir true [
    ("A", telemetry (record (JNum (Int 10)) "2024-10-05 12:00:00"));
    ("B", telemetry b);
    ("C", telemetry (record (JNum (Float 20)) "2024-10-05 12:00:10"))])].

Definition undated : content := record (JNum (Int 15)) "2024-10-05T12:00:00".

Definition without_cpu : content :=
  Json (JObj [("timestamp", JStr "2024-10-05 12:00:00")]).

(** A single peer, whose timestamp is not a date. *)
Definition datasites_bad_timestamp : node :=
  Dir true [("datasites", Dir true [
    ("A", telemetry (record (JNum (Int 10)) "yesterday"))])].

Definition history_path : path := ["public"; "cpu_tracker.json"].

Definition empty_site : node := Dir true [("public", Dir true [])].

Definition req (s : Z) (x : Z) : write_request :=
  WriteRequest (DateTime 2024 10 5 12 0 s 0) (Float (float_of_Z x)) ["x"].

Definition site_with_history : node :=
  (write_all empty_site history_path 3 [req 1 10; req 2 20]).1.

End Fixtures.

(** ** More fixtures *)

Module Scenes.

(** A history file in the shape of the docstring of [truncate_file], with
    a key the store does not know, no [peers], and more items than the
    capacity used on it. *)
Definition legacy_history : node :=
  Dir true [("public", Dir true [("cpu_tracker.json",
    File (Json (JObj [("version", JNum (Int 1));
                      ("items", JArr [JNull; JBool true; JStr "old"])])))])].

(** A host: the application with its assets beside the datasites. The
    local datasite [me] already has a [public] directory that holds an
    older [index.html] and a directory called [docs]; [B] publishes
    something that is not JSON. *)
Definition world : node :=
  Dir true
    [("app", Dir true [("assets", Dir true
        [("index.html", File NotJson);
         ("img", Dir true [("a.png", File NotJson)]);
         ("data.json", File (Json JNull));
         ("docs", File NotJson)])]);
     ("datasites", Dir true
        [("me", Dir true
            [("api_data", Dir true [("cpu_tracker", Dir true
                [("cpu_tracker.json",
                  File (Fixtures.record (JNum (Int 10)) "2024-10-05 12:00:00"))])]);
             ("public", Dir true
                [("docs", Dir true []);
                 ("index.html", File (Json JNull))])]);
         ("B", Fixtures.telemetry NotJson);
         ("C", Fixtures.telemetry
                 (Fixtures.record (JNum (Float 20)) "2024-10-05 12:00:10"))])].

Definition assets : path := ["app"; "assets"].

Definition me : path := ["datasites"; "me"].

(** A system that refuses no renaming, and one on which the application
    and the datasites are on different file systems. *)
Definition willing : refusals := fun _ _ => None.


End Scenes.

(** * Properties *)

(** ** Association lists and paths *)

Lemma assoc_app_fresh {A} k (v : A) kvs :
  assoc k kvs = None -> assoc k (kvs ++ [(k, v)]) = Some v.
Proof.
  induction kvs as [|[k' v'] kvs IH]; simpl.
  - intros _. by rewrite String.eqb_refl.
  - destruct (String.eqb k k'); [discriminate | exact IH].
Qed.

Lemma assoc_replace_entry {A} k (v : A) kvs :
  is_Some (assoc k kvs) -> assoc k (replace_entry k v kvs) = Some v.
Proof.
  induction kvs as [|[k' v'] kvs IH]; simpl.
  - intros [? [=]].
  - destruct (String.eqb k k') eqn:E; simpl.
    + intros _. by rewrite String.eqb_refl.
    + rewrite E. exact IH.
Qed.

Lemma replace_entry_twice {A} k (v w : A) kvs :
  replace_entry k w (replace_entry k v kvs) = replace_entry k w kvs.
Proof.
  induction kvs as [|[k' v'] kvs IH]; simpl; [reflexivity|].
  destruct (String.eqb k k') eqn:E; simpl.
  - by rewrite String.eqb_refl.
  - by rewrite E, IH.
Qed.

Lemma replace_entry_app_fresh {A} k (v w : A) kvs :
  assoc k kvs = None ->
  replace_entry k w (kvs ++ [(k, v)]) = kvs ++ [(k, w)].
Proof.
  induction kvs as [|[k' v'] kvs IH]; simpl.
  - intros _. by rewrite String.eqb_refl.
  - destruct (String.eqb k k'); [discriminate|].
    intros H. by rewrite IH.
Qed.


Lemma lookup_path_app fs p q :
  lookup_path fs (p ++ q) = lookup_path fs p ≫= fun n => lookup_path n q.
Proof.
  revert fs. induction p as [|name p IH]; intros fs; simpl; [reflexivity|].
  destruct fs as [c|r entries|r names]; [reflexivity | | by destruct q].
  destruct (assoc name entries); [apply IH | reflexivity].
Qed.

Lemma lookup_path_snoc fs d n :
  lookup_path fs (d ++ [n])
  = match lookup_path fs d with
    | Some (Dir _ entries) => assoc n entries
    | Some (Locked r names) => Some (Locked r names)
    | _ => None
    end.
Proof.
  rewrite lookup_path_app.
  destruct (lookup_path fs d) as [[c|r entries|r names]|]; simpl; try reflexivity.
  by destruct (assoc n entries).
Qed.

(** The way is barred exactly when resolution ends at a locked directory
    above the path. *)
Lemma barred_snoc fs d n :
  barred fs (d ++ [n])
  = match lookup_path fs d with
    | Some (Locked _ _) => true
    | _ => false
    end.
Proof.
  revert fs. induction d as [|x d IH]; intros fs; simpl.
  - destruct fs as [c|r entries|r names]; try reflexivity.
    by destruct (assoc n entries).
  - destruct fs as [c|r entries|r names]; try reflexivity.
    destruct (assoc x entries); [apply IH | reflexivity].
Qed.

Lemma barred_locked fs p :
  barred fs p = true -> exists r names, lookup_path fs p = Some (Locked r names).
Proof.
  revert fs. induction p as [|name p IH]; intros fs; simpl; [discriminate|].
  destruct fs as [c|r entries|r names]; [discriminate | | eauto].
  destruct (assoc name entries); [apply IH | discriminate].
Qed.

Lemma resolve_absent fs p : lookup_path fs p = None -> resolve fs p = Ok None.
Proof.
  intros H. unfold resolve. destruct (barred fs p) eqn:Hb; [|by rewrite H].
  apply barred_locked in Hb as (r & names & Hb). congruence.
Qed.

Lemma resolve_file fs p c :
  lookup_path fs p = Some (File c) -> resolve fs p = Ok (Some (File c)).
Proof.
  intros H. unfold resolve. destruct (barred fs p) eqn:Hb; [|by rewrite H].
  apply barred_locked in Hb as (r & names & Hb). congruence.
Qed.

Lemma resolve_dir fs p r entries :
  lookup_path fs p = Some (Dir r entries) ->
  resolve fs p = Ok (Some (Dir r entries)).
Proof.
  intros H. unfold resolve. destruct (barred fs p) eqn:Hb; [|by rewrite H].
  apply barred_locked in Hb as (r' & names & Hb). congruence.
Qed.




(** ** The peer enumerator *)




(** A root that may be listed but not searched: the listing succeeds and
    the first [is_dir] raises. *)
Example network_participants_unsearchable_root :
  network_participants (Dir true [("datasites", Locked true ["A"; "B"])])
    ["datasites"]
  = Raise PermissionError.
Proof. reflexivity. Qed.

Example network_participants_missing_root :
  network_participants Fixtures.datasites ["nowhere"] = Raise FileNotFoundError
  /\ network_participants Fixtures.datasites ["datasites"; "notes.txt"; "x"]
     = Raise NotADirectoryError.
Proof. split; reflexivity. Qed.

(** ** The staleness filter *)

Example strptime_ex1 :
  strptime "2024-10-05 14:00:25" = Some (DateTime 2024 10 5 14 0 25 0).
Proof. reflexivity. Qed.
Example strptime_ex2 : strptime "2024-2-30 14:00:25" = None.
Proof. reflexivity. Qed.
Example strptime_ex3 :
  strptime "2024-2- 9   4:5:6" = Some (DateTime 2024 2 9 4 5 6 0).
Proof. reflexivity. Qed.
Example strftime_ex1 :
  strftime (DateTime 2024 10 5 14 0 25 123) = "2024-10-05 14:00:25".
Proof. reflexivity. Qed.
Example is_updated_ex1 :
  is_updated (DateTime 2024 10 5 14 0 30 0) "2024-10-05 14:00:25" = Ok true.
Proof. reflexivity. Qed.

(** C3. A timestamp that parses is fresh exactly when the clock is less
    than sixty seconds past it: fresh at 59 seconds, stale at 61 (and at
    60), fresh when it lies in the future. *)
Theorem is_updated_under_a_minute (now : datetime) (s : string) (ts : datetime) :
  strptime s = Some ts ->
  (is_updated now s = Ok true <-> datetime_sub now ts < timedelta_seconds 60)
  /\ (is_updated now s = Ok false <-> timedelta_seconds 60 <= datetime_sub now ts)
  /\ (datetime_sub now ts = timedelta_seconds 59 -> is_updated now s = Ok true)
  /\ (datetime_sub now ts = timedelta_seconds 61 -> is_updated now s = Ok false)
  /\ (datetime_sub now ts < 0 -> is_updated now s = Ok true).
Proof.
  intros Hparse. unfold is_updated. rewrite Hparse.
  unfold timedelta_minutes, timedelta_seconds.
  destruct (Z.ltb_spec (datetime_sub now ts) (1 * 60 * 1000000)) as [Hlt|Hge];
    repeat split; intros; try reflexivity; try discriminate; try lia.
Qed.

Lemma is_updated_under_a_minute_witness :
  strptime "2024-02-29 23:59:30" = Some (DateTime 2024 2 29 23 59 30 0)
  /\ is_updated (DateTime 2024 3 1 0 0 29 0) "2024-02-29 23:59:30" = Ok true
  /\ is_updated (DateTime 2024 3 1 0 0 31 0) "2024-02-29 23:59:30" = Ok false
  /\ is_updated (DateTime 2024 2 29 23 0 0 0) "2024-02-29 23:59:30" = Ok true.
Proof.
  assert (Hparse : strptime "2024-02-29 23:59:30"
                   = Some (DateTime 2024 2 29 23 59 30 0)) by reflexivity.
  split; [exact Hparse|]. split; [|split].
  - destruct (is_updated_under_a_minute (DateTime 2024 3 1 0 0 29 0) _ _ Hparse)
      as (_ & _ & H59 & _). apply H59. reflexivity.
  - destruct (is_updated_under_a_minute (DateTime 2024 3 1 0 0 31 0) _ _ Hparse)
      as (_ & _ & _ & H61 & _). apply H61. reflexivity.
  - destruct (is_updated_under_a_minute (DateTime 2024 2 29 23 0 0 0) _ _ Hparse)
      as (_ & _ & _ & _ & Hfuture). apply Hfuture. reflexivity.
Defined.

Example is_updated_at_the_minute :
  is_updated (DateTime 2024 3 1 0 0 30 0) "2024-02-29 23:59:30" = Ok false.
Proof. reflexivity. Qed.

Example is_updated_just_under_the_minute :
  is_updated (DateTime 2024 3 1 0 0 29 999999) "2024-02-29 23:59:30" = Ok true.
Proof. reflexivity. Qed.

Example is_updated_malformed :
  is_updated (DateTime 2024 3 1 0 0 30 0) "2024-02-30 23:59:30" = Raise ValueError.
Proof. reflexivity. Qed.

(** *** Timestamps written by [strftime] parse *)

Lemma digit_char_spec n :
  is_digit (digit_char n) = true /\ digit_value (digit_char n) = n mod 10.
Proof.
  unfold digit_char. pose proof (Z.mod_pos_bound n 10 ltac:(lia)) as Hm.
  generalize dependent (n mod 10). intros m Hm.
  assert (Hcases : m = 0 \/ m = 1 \/ m = 2 \/ m = 3 \/ m = 4 \/ m = 5 \/ m = 6
                   \/ m = 7 \/ m = 8 \/ m = 9) by lia.
  repeat destruct Hcases as [->|Hcases]; try subst m; by split.
Qed.

Lemma append_empty_l s : "" +:+ s = s.
Proof. reflexivity. Qed.

Lemma append_cons c s t : String c s +:+ t = String c (s +:+ t).
Proof. reflexivity. Qed.

Lemma append_empty_r s : s +:+ "" = s.
Proof. induction s as [|c s IH]; [reflexivity|]. by rewrite append_cons, IH. Qed.

Lemma pad2_append n rest :
  pad2 n +:+ rest = String (digit_char (n / 10)) (String (digit_char n) rest).
Proof. reflexivity. Qed.

Lemma digits_pad2 n rest :
  0 <= n <= 99 -> no_digit_ahead rest = true ->
  digits 0 0 (pad2 n +:+ rest) = (n, 2%nat, rest).
Proof.
  intros Hn Hrest. rewrite pad2_append. simpl.
  destruct (digit_char_spec (n / 10)) as (-> & ->).
  destruct (digit_char_spec n) as (-> & ->).
  assert (Hval : 10 * (10 * 0 + (n / 10) mod 10) + n mod 10 = n)
    by (Z.div_mod_to_equations; lia).
  rewrite Hval.
  destruct rest as [|c rest]; simpl; [reflexivity|].
  simpl in Hrest. by apply negb_true_iff in Hrest as ->.
Qed.

Lemma field_pad2 lo hi n rest :
  0 <= n <= 99 -> lo <= n <= hi -> no_digit_ahead rest = true ->
  field lo hi (pad2 n +:+ rest) = Some (n, rest).
Proof.
  intros Hn Hrange Hrest. unfold field. rewrite digits_pad2 by done. simpl.
  destruct (Z.leb_spec lo n); [|lia]. destruct (Z.leb_spec n hi); [|lia]. done.
Qed.

Lemma year_field_pad4 y rest :
  0 <= y <= 9999 -> year_field (pad4 y +:+ rest) = Some (y, rest).
Proof.
  intros Hy. unfold pad4. rewrite !append_cons, pad2_append. simpl.
  destruct (digit_char_spec (y / 1000)) as (-> & ->).
  destruct (digit_char_spec (y / 100)) as (-> & ->).
  destruct (digit_char_spec (y / 10)) as (-> & ->).
  destruct (digit_char_spec y) as (-> & ->).
  simpl. do 2 f_equal. Z.div_mod_to_equations. lia.
Qed.

Lemma day_field_digit c s :
  is_digit c = true -> day_field (String c s) = field 1 31 (String c s).
Proof.
  destruct c as [[] [] [] [] [] [] [] []]; try discriminate; reflexivity.
Qed.

Lemma day_field_pad2 n rest :
  1 <= n <= 31 -> no_digit_ahead rest = true ->
  day_field (pad2 n +:+ rest) = Some (n, rest).
Proof.
  intros Hn Hrest.
  rewrite <- (field_pad2 1 31 n rest) by (done || lia).
  rewrite pad2_append. apply day_field_digit. apply digit_char_spec.
Qed.

Lemma skip_spaces_digit c s :
  is_digit c = true -> skip_spaces (String c s) = String c s.
Proof.
  destruct c as [[] [] [] [] [] [] [] []]; try discriminate; reflexivity.
Qed.

Lemma skip_spaces_pad2 n rest : skip_spaces (pad2 n +:+ rest) = pad2 n +:+ rest.
Proof. rewrite pad2_append. apply skip_spaces_digit. apply digit_char_spec. Qed.

Lemma valid_datetime_on_the_second d :
  valid_datetime d = true -> valid_datetime (on_the_second d) = true.
Proof.
  unfold valid_datetime. simpl. rewrite !andb_true_iff. intuition.
Qed.

Lemma valid_day_at_most_31 d : valid_datetime d = true -> day d <= 31.
Proof.
  unfold valid_datetime. rewrite !andb_true_iff, !Z.leb_le.
  intros Hvalid. repeat match goal with H : _ /\ _ |- _ => destruct H end.
  etrans; [eassumption|]. unfold days_in_month.
  destruct (_ && _); [lia|].
  assert (Hc : month d = 1 \/ month d = 2 \/ month d = 3 \/ month d = 4
               \/ month d = 5 \/ month d = 6 \/ month d = 7 \/ month d = 8
               \/ month d = 9 \/ month d = 10 \/ month d = 11 \/ month d = 12) by lia.
  repeat destruct Hc as [->|Hc]; try rewrite Hc; simpl; lia.
Qed.

Section CanonicalTimestamps.

Local Arguments pad2 : simpl never.
Local Arguments pad4 : simpl never.
Local Arguments field : simpl never.
Local Arguments day_field : simpl never.
Local Arguments skip_spaces : simpl never.

Lemma year_text_pad4 y : 1000 <= y -> year_text y = pad4 y.
Proof.
  intros Hy. unfold year_text.
  destruct (Z.ltb_spec y 10); [lia|]. destruct (Z.ltb_spec y 100); [lia|].
  destruct (Z.ltb_spec y 1000); [lia | reflexivity].
Qed.

(** What [strftime] writes for a valid date from the year 1000 on,
    [strptime] reads back, to the second. *)
Lemma strptime_strftime d :
  valid_datetime d = true -> 1000 <= year d ->
  strptime (strftime d) = Some (on_the_second d).
Proof.
  intros Hvalid Hyear.
  pose proof (valid_datetime_on_the_second d Hvalid) as Hvalid0.
  pose proof (valid_day_at_most_31 d Hvalid) as Hday.
  unfold valid_datetime in Hvalid. rewrite !andb_true_iff, !Z.leb_le in Hvalid.
  repeat match goal with H : _ /\ _ |- _ => destruct H end.
  unfold strptime, strftime.
  rewrite year_text_pad4, year_field_pad4 by lia.
  rewrite ?append_cons, ?append_empty_l; simpl.
  rewrite field_pad2 by (done || lia).
  rewrite ?append_cons, ?append_empty_l; simpl.
  rewrite day_field_pad2 by (done || lia).
  rewrite ?append_cons, ?append_empty_l; simpl.
  rewrite skip_spaces_pad2, field_pad2 by (done || lia).
  rewrite ?append_cons, ?append_empty_l; simpl.
  rewrite field_pad2 by (done || lia).
  rewrite ?append_cons, ?append_empty_l; simpl.
  rewrite <- (append_empty_r (pad2 (second d))).
  rewrite field_pad2 by (done || lia). simpl.
  fold (on_the_second d). by rewrite Hvalid0.
Qed.

End CanonicalTimestamps.

(** So every timestamp written from the year 1000 on is classified, and by
    its age alone; an earlier one is not read back. *)
Lemma is_updated_strftime now d :
  valid_datetime d = true -> 1000 <= year d ->
  is_updated now (strftime d)
  = Ok (datetime_sub now (on_the_second d) <? timedelta_seconds 60).
Proof. intros Hvalid Hyear. unfold is_updated. by rewrite strptime_strftime. Qed.

Example strftime_before_1000 :
  strftime (DateTime 5 1 2 3 4 5 0) = "5-01-02 03:04:05"
  /\ strptime (strftime (DateTime 5 1 2 3 4 5 0)) = None.
Proof. split; reflexivity. Qed.

(** ** The network aggregator *)

Lemma minute_is_sixty_seconds : timedelta_minutes 1 = timedelta_seconds 60.
Proof. reflexivity. Qed.

Section AggregatorFacts.

Variable float_of_str : string -> option float.
Variables (fs : node) (root : path).

(** An absent file and text that is not JSON leave the tally as it is and
    raise nothing. *)
Lemma visit_absent now st peer :
  lookup_path fs (tracker_file root peer) = None ->
  visit_peer float_of_str fs root now st peer = Ok st.
Proof.
  intros H. unfold visit_peer, path_exists. by rewrite (resolve_absent _ _ H).
Qed.

Lemma visit_invalid_json now st peer :
  lookup_path fs (tracker_file root peer) = Some (File NotJson) ->
  visit_peer float_of_str fs root now st peer = Ok st.
Proof.
  intros H. unfold visit_peer, path_exists, open_r.
  by rewrite (resolve_file _ _ _ H).
Qed.

(** What [json.load] raises on a file it does not take, other than
    [JSONDecodeError], leaves the iteration. *)
Lemma visit_unloadable now st peer c e :
  lookup_path fs (tracker_file root peer) = Some (File c) ->
  json_load c = Raise e ->
  e <> JSONDecodeError ->
  visit_peer float_of_str fs root now st peer = Raise e.
Proof.
  intros H Hload He. unfold visit_peer, path_exists, open_r.
  rewrite (resolve_file _ _ _ H). simpl.
  destruct c; simpl in *; try done; by injection Hload as <-.
Qed.

Lemma visit_status now st peer v :
  peer_status float_of_str fs root now peer v ->
  visit_peer float_of_str fs root now st peer = Ok (after_view st peer v).
Proof.
  destruct 1 as [H|H|kvs H Hts|kvs s ts H Hts Hparse Hage
                |kvs s ts v x H Hts Hparse Hage Hcpu Hx].
  - by apply visit_absent.
  - by apply visit_invalid_json.
  - unfold visit_peer, path_exists, open_r. rewrite (resolve_file _ _ _ H).
    simpl. by rewrite Hts.
  - unfold visit_peer, path_exists, open_r. rewrite (resolve_file _ _ _ H).
    simpl. rewrite Hts. simpl.
    unfold is_updated. rewrite Hparse, minute_is_sixty_seconds. simpl.
    by apply Z.ltb_ge in Hage as ->.
  - unfold visit_peer, path_exists, open_r. rewrite (resolve_file _ _ _ H).
    simpl. rewrite Hts. simpl.
    unfold is_updated. rewrite Hparse, minute_is_sixty_seconds. simpl.
    apply Z.ltb_lt in Hage as ->. by rewrite Hcpu; simpl; rewrite Hx.
Qed.

(** What an iteration that returns has done: nothing, or credited the peer
    with the [cpu] of its file. *)
Lemma visit_inv now st peer st' :
  visit_peer float_of_str fs root now st peer = Ok st' ->
  st' = st
  \/ exists x, peer_cpu float_of_str fs root peer = Ok x
               /\ st' = credited st peer x.
Proof.
  unfold visit_peer, peer_cpu, credited, path_exists, open_r.
  destruct (resolve fs (tracker_file root peer)) as [[[c| |]|]|e]; simpl;
    try discriminate; try (by left; congruence).
  destruct c as [| | | | |peer_data]; simpl;
    try discriminate; try (by left; congruence).
  destruct (py_contains "timestamp" peer_data) as [[]|e]; simpl;
    [| by left; congruence | discriminate].
  destruct (py_getitem peer_data "timestamp") as [[| | |s| |]|e]; simpl;
    try discriminate.
  destruct (is_updated now s) as [[]|e]; simpl;
    [| by left; congruence | discriminate].
  destruct (py_getitem peer_data "cpu") as [cpu|e]; simpl; [|discriminate].
  destruct (py_float float_of_str cpu) as [x|e]; simpl; [|discriminate].
  intros [= <-]. right. by exists x.
Qed.

Variable clock : nat -> datetime.

Lemma for_each_peer_classified i peers views :
  classified float_of_str fs root clock i peers views ->
  forall st,
    for_each_peer float_of_str clock fs root i peers st
    = Ok (Tally (foldl PrimFloat.add (aggregated_usage st) (omap reading views))
                (aggregated_peers st + Z.of_nat (length (omap reading views)))
                (active_peers st ++ contributors peers views)).
Proof.
  induction 1 as [i|i p v ps vs Hp _ IH]; intros st; simpl.
  - rewrite Z.add_0_r, app_nil_r. by destruct st.
  - rewrite (visit_status _ _ _ _ Hp). simpl. rewrite IH.
    destruct v as [x|]; simpl; [|reflexivity].
    rewrite <- app_assoc. do 2 f_equal.
    change (list_omap peer_view float reading vs) with (omap reading vs). lia.
Qed.

Lemma for_each_peer_inv i peers st st' :
  for_each_peer float_of_str clock fs root i peers st = Ok st' ->
  exists active cpus,
    sublist active peers
    /\ Forall2 (fun p x => peer_cpu float_of_str fs root p = Ok x) active cpus
    /\ active_peers st' = active_peers st ++ active
    /\ aggregated_usage st' = foldl PrimFloat.add (aggregated_usage st) cpus
    /\ aggregated_peers st' = aggregated_peers st + Z.of_nat (length cpus).
Proof.
  revert i st. induction peers as [|p ps IH]; intros i st; simpl.
  - intros [= <-]. exists (@nil string), (@nil float).
    rewrite app_nil_r, Z.add_0_r. repeat split; constructor.
  - destruct (visit_peer float_of_str fs root (clock i) st p) as [st1|e] eqn:Hvisit;
      simpl; [|discriminate].
    intros Hrest.
    destruct (IH _ _ Hrest) as (act & cpus & Hsub & Hcpus & Ha & Hu & Hn).
    destruct (visit_inv _ _ _ _ Hvisit) as [->|(x & Hx & ->)].
    + exists act, cpus. repeat split; try done. by constructor.
    + exists (p :: act), (x :: cpus). simpl in *.
      rewrite Ha, Hu, Hn, <- app_assoc. repeat split; try done.
      * by constructor.
      * by constructor.
      * lia.
Qed.

Lemma mean_of_tally (xs : list float) :
  (if 0 <? 0 + Z.of_nat (length xs)
   then Float (foldl PrimFloat.add 0%float xs
               / float_of_Z (0 + Z.of_nat (length xs)))%float
   else Int (-1))
  = mean_of xs.
Proof. rewrite Z.add_0_l. by destruct xs. Qed.

(** On a peer list every member of which is skipped or contributes, the
    aggregator returns the mean of the contributions, added in enumeration
    order, with the contributors in that order; and [-1] with no active
    peer when there is no contribution. *)
Lemma get_network_cpu_mean_classified peers views :
  classified float_of_str fs root clock 0 peers views ->
  get_network_cpu_mean float_of_str clock fs root peers
  = Ok (mean_of (omap reading views), contributors peers views).
Proof.
  intros Hc. unfold get_network_cpu_mean.
  rewrite (for_each_peer_classified _ _ _ Hc). simpl.
  by rewrite mean_of_tally.
Qed.

Lemma contributors_none peers views :
  omap reading views = [] -> contributors peers views = [].
Proof.
  revert views. induction peers as [|p ps IH]; intros [|[x|] vs]; simpl; try done.
  apply IH.
Qed.

(** In particular, when no peer contributes, the result is the sentinel
    with no active peer. *)
Lemma sentinel_without_contribution peers views :
  classified float_of_str fs root clock 0 peers views ->
  omap reading views = [] ->
  get_network_cpu_mean float_of_str clock fs root peers = Ok (Int (-1), []).
Proof.
  intros Hc Hnone. rewrite (get_network_cpu_mean_classified _ _ Hc).
  by rewrite Hnone, contributors_none.
Qed.

End AggregatorFacts.

Section SkippedPeers.

Variable float_of_str : string -> option float.
Variables (fs : node) (root : path) (clock : nat -> datetime).

Lemma skip_tick_before k j : (j < k)%nat -> skip_tick k clock j = clock j.
Proof. intros H. unfold skip_tick. by apply Nat.ltb_lt in H as ->. Qed.

Lemma skip_tick_from k j : (k <= j)%nat -> skip_tick k clock j = clock (S j).
Proof. intros H. unfold skip_tick. by apply Nat.ltb_ge in H as ->. Qed.

Lemma for_each_peer_shift k peers :
  forall j st, (k <= j)%nat ->
    for_each_peer float_of_str clock fs root (S j) peers st
    = for_each_peer float_of_str (skip_tick k clock) fs root j peers st.
Proof.
  induction peers as [|p ps IH]; intros j st Hj; simpl; [reflexivity|].
  rewrite skip_tick_from by done.
  destruct (visit_peer float_of_str fs root (clock (S j)) st p); simpl;
    [apply IH; lia | reflexivity].
Qed.

Lemma for_each_peer_without before peer after :
  (forall now st, visit_peer float_of_str fs root now st peer = Ok st) ->
  forall i st,
    for_each_peer float_of_str clock fs root i (before ++ peer :: after) st
    = for_each_peer float_of_str (skip_tick (i + length before) clock)
        fs root i (before ++ after) st.
Proof.
  intros Hskip. induction before as [|b bs IH]; intros i st; simpl.
  - rewrite Hskip. simpl. rewrite Nat.add_0_r. by apply for_each_peer_shift.
  - rewrite skip_tick_before by lia.
    destruct (visit_peer float_of_str fs root (clock i) st b); simpl; [|reflexivity].
    rewrite IH. by replace (S i + length bs)%nat with (i + S (length bs))%nat by lia.
Qed.

End SkippedPeers.

(** A peer whose telemetry file is absent, or is text that is not valid
    JSON, is skipped without an error, and the aggregation goes on as if
    the peer were not in the list: the run returns what the run over the
    remaining peers returns, every remaining peer being examined under the
    same clock reading. *)
Lemma absent_or_invalid_json_peer_is_skipped
    (float_of_str : string -> option float) (clock : nat -> datetime)
    (fs : node) (root : path) (before : list string) (peer : string)
    (after : list string) :
  lookup_path fs (tracker_file root peer) = None
  \/ lookup_path fs (tracker_file root peer) = Some (File NotJson) ->
  (forall now st, visit_peer float_of_str fs root now st peer = Ok st)
  /\ get_network_cpu_mean float_of_str clock fs root (before ++ peer :: after)
     = get_network_cpu_mean float_of_str (skip_tick (length before) clock)
         fs root (before ++ after).
Proof.
  intros Hpeer.
  assert (Hskip : forall now st,
             visit_peer float_of_str fs root now st peer = Ok st).
  { intros now st. destruct Hpeer; [by apply visit_absent | by apply visit_invalid_json]. }
  split; [exact Hskip|].
  unfold get_network_cpu_mean.
  by rewrite (for_each_peer_without _ _ _ _ _ _ _ Hskip).
Qed.

(** C5, as the code has it. A telemetry file cut inside a multi-byte
    character is corrupt, and its peer is not skipped: [json.load] raises
    [UnicodeDecodeError], which is not the [JSONDecodeError] the loop
    catches, so the aggregation is lost although A and C are valid. When B
    holds text that is not JSON, the same run skips B and returns the mean
    15 of A and C. *)
Theorem undecodable_peer_aborts_aggregation :
  get_network_cpu_mean Fixtures.no_strings Fixtures.at_noon
    (Fixtures.datasites_with NotText) ["datasites"] ["A"; "B"; "C"]
  = Raise UnicodeDecodeError
  /\ get_network_cpu_mean Fixtures.no_strings Fixtures.at_noon
       (Fixtures.datasites_with NotJson) ["datasites"] ["A"; "B"; "C"]
     = Ok (Float 15, ["A"; "C"]).
Proof. split; reflexivity. Qed.

(** So does a document [json.load] refuses for its size or depth. *)
Example refused_document_aborts_aggregation :
  get_network_cpu_mean Fixtures.no_strings Fixtures.at_noon
    (Fixtures.datasites_with TooLong) ["datasites"] ["A"; "B"; "C"]
  = Raise ValueError
  /\ get_network_cpu_mean Fixtures.no_strings Fixtures.at_noon
       (Fixtures.datasites_with TooDeep) ["datasites"] ["A"; "B"; "C"]
     = Raise RecursionError.
Proof. split; reflexivity. Qed.

Example a_missing_peer_is_skipped :
  get_network_cpu_mean Fixtures.no_strings Fixtures.at_noon
    Fixtures.datasites ["datasites"] ["A"; "Z"; "C"]
  = Ok (Float 15, ["A"; "C"]).
Proof. reflexivity. Qed.

(** C10. Whatever the peer list, the active peers the aggregator returns
    are a subsequence of it, in enumeration order, and the mean it returns
    is the mean of the [cpu] values of exactly those peers ([-1] when there
    is none). *)
Theorem active_peers_subsequence
    (float_of_str : string -> option float) (clock : nat -> datetime)
    (fs : node) (root : path) (peers : list string)
    (cpu_usage_mean : number) (active : list string) :
  get_network_cpu_mean float_of_str clock fs root peers
  = Ok (cpu_usage_mean, active) ->
  sublist active peers
  /\ exists cpus,
       Forall2 (fun p x => peer_cpu float_of_str fs root p = Ok x) active cpus
       /\ cpu_usage_mean = mean_of cpus.
Proof.
  unfold get_network_cpu_mean.
  destruct (for_each_peer float_of_str clock fs root 0 peers (Tally 0 0 []))
    as [st|e] eqn:Hloop; simpl; [|discriminate].
  intros [= <- <-].
  destruct (for_each_peer_inv _ _ _ _ _ _ _ _ Hloop)
    as (act & cpus & Hsub & Hcpus & Ha & Hu & Hn).
  simpl in Ha, Hu, Hn. rewrite Ha, Hu, Hn.
  split; [exact Hsub|]. exists cpus. split; [exact Hcpus|].
  apply mean_of_tally.
Qed.

Lemma active_peers_subsequence_witness :
  get_network_cpu_mean Fixtures.no_strings Fixtures.at_noon
    Fixtures.datasites ["datasites"] ["C"; "B"; "A"; "notes.txt"]
  = Ok (Float 15, ["C"; "A"])
  /\ sublist ["C"; "A"] ["C"; "B"; "A"; "notes.txt"]
  /\ exists cpus,
       Forall2 (fun p x => peer_cpu Fixtures.no_strings Fixtures.datasites
                             ["datasites"] p = Ok x) ["C"; "A"] cpus
       /\ Float 15 = mean_of cpus.
Proof.
  assert (Hrun : get_network_cpu_mean Fixtures.no_strings Fixtures.at_noon
                   Fixtures.datasites ["datasites"] ["C"; "B"; "A"; "notes.txt"]
                 = Ok (Float 15, ["C"; "A"])) by reflexivity.
  split; [exact Hrun|].
  exact (active_peers_subsequence _ _ _ _ _ _ _ Hrun).
Defined.

(** *** What is not caught *)

Section Uncaught.

Variable float_of_str : string -> option float.
Variables (fs : node) (root : path).

(** A timestamp that does not parse raises [ValueError] out of the
    iteration; a fresh peer without [cpu] raises [KeyError]. *)
Lemma visit_unparsable_timestamp now st peer kvs s :
  lookup_path fs (tracker_file root peer) = Some (File (Json (JObj kvs))) ->
  assoc "timestamp" kvs = Some (JStr s) ->
  strptime s = None ->
  visit_peer float_of_str fs root now st peer = Raise ValueError.
Proof.
  intros Hfile Hts Hparse. unfold visit_peer, path_exists, open_r.
  rewrite (resolve_file _ _ _ Hfile). simpl. rewrite Hts. simpl.
  unfold is_updated. by rewrite Hparse.
Qed.

Lemma visit_without_cpu now st peer kvs s ts :
  lookup_path fs (tracker_file root peer) = Some (File (Json (JObj kvs))) ->
  assoc "timestamp" kvs = Some (JStr s) ->
  strptime s = Some ts ->
  datetime_sub now ts < timedelta_seconds 60 ->
  assoc "cpu" kvs = None ->
  visit_peer float_of_str fs root now st peer = Raise KeyError.
Proof.
  intros Hfile Hts Hparse Hage Hcpu. unfold visit_peer, path_exists, open_r.
  rewrite (resolve_file _ _ _ Hfile). simpl. rewrite Hts. simpl.
  unfold is_updated. rewrite Hparse, minute_is_sixty_seconds. simpl.
  apply Z.ltb_lt in Hage as ->. by rewrite Hcpu.
Qed.

(** An exception in one iteration is the outcome of the run, whatever the
    peers before it contributed and whatever the peers after it hold. *)
Lemma get_network_cpu_mean_aborts clock before views peer after e :
  classified float_of_str fs root clock 0 before views ->
  (forall st, visit_peer float_of_str fs root (clock (length before)) st peer
              = Raise e) ->
  get_network_cpu_mean float_of_str clock fs root (before ++ peer :: after)
  = Raise e.
Proof.
  intros Hbefore Hraise. unfold get_network_cpu_mean.
  assert (Hloop : forall i st,
             classified float_of_str fs root clock i before views ->
             (forall st', visit_peer float_of_str fs root
                            (clock (i + length before)%nat) st' peer = Raise e) ->
             for_each_peer float_of_str clock fs root i
               (before ++ peer :: after) st = Raise e).
  { clear Hbefore Hraise. intros i st Hc. revert st.
    induction Hc as [i|i p v ps vs Hp _ IH]; intros st Hraise; simpl.
    - rewrite Nat.add_0_r in Hraise. by rewrite Hraise.
    - rewrite (visit_status _ _ _ _ _ _ _ Hp). simpl. apply IH.
      intros st'. by replace (S i + length ps)%nat with (i + S (length ps))%nat by lia. }
  by rewrite (Hloop 0%nat _ Hbefore Hraise).
Qed.

End Uncaught.

(** C2, as the code has it. A peer whose timestamp does not parse, or a
    fresh peer without [cpu], is not skipped: the exception leaves the loop
    and the whole aggregation, the valid peers A and C notwithstanding. *)
Theorem malformed_peer_aborts_aggregation :
  get_network_cpu_mean Fixtures.no_strings Fixtures.at_noon
    (Fixtures.datasites_with Fixtures.undated) ["datasites"] ["A"; "B"; "C"]
  = Raise ValueError
  /\ get_network_cpu_mean Fixtures.no_strings Fixtures.at_noon
       (Fixtures.datasites_with Fixtures.without_cpu) ["datasites"] ["A"; "B"; "C"]
     = Raise KeyError.
Proof. split; reflexivity. Qed.

(** C1, as the code has it. With a single peer, whose timestamp is not a
    date, no peer has fresh data that parses; the aggregator raises
    [ValueError] where the sentinel [-1] with no active peer is due. *)
Theorem no_fresh_peer_without_sentinel :
  (forall x, ~ peer_status Fixtures.no_strings Fixtures.datasites_bad_timestamp
                 ["datasites"] Fixtures.noon "A" (Contributes x))
  /\ get_network_cpu_mean Fixtures.no_strings Fixtures.at_noon
       Fixtures.datasites_bad_timestamp ["datasites"] ["A"]
     = Raise ValueError.
Proof.
  split; [|reflexivity].
  intros x Hx. inversion Hx; subst.
  match goal with
  | Hfile : lookup_path _ _ = Some _ |- _ => vm_compute in Hfile; injection Hfile as <-
  end.
  match goal with
  | Hts : assoc "timestamp" _ = Some _ |- _ => vm_compute in Hts; injection Hts as <-
  end.
  match goal with
  | Hparse : strptime _ = Some _ |- _ => vm_compute in Hparse; discriminate Hparse
  end.
Qed.

(** ** Writing files *)

Lemma write_path_lookup fs p c fs' :
  write_path fs p c = Ok fs' -> lookup_path fs' p = Some (File c).
Proof.
  revert fs fs'. induction p as [|name p IH]; intros fs fs'; simpl.
  - destruct fs; [by intros [= <-] | discriminate | discriminate].
  - destruct fs as [c0|r entries|r names]; [discriminate | | discriminate].
    destruct (assoc name entries) as [child|] eqn:Hchild.
    + destruct (write_path child p c) as [child'|e] eqn:Hw; simpl; [|discriminate].
      intros [= <-]. simpl. rewrite assoc_replace_entry by eauto.
      exact (IH _ _ Hw).
    + destruct p; [|discriminate]. intros [= <-]. simpl.
      by rewrite assoc_app_fresh.
Qed.

(** Whether a write goes through does not depend on what is written. *)
Lemma write_path_outcome fs p c1 c2 :
  match write_path fs p c1, write_path fs p c2 with
  | Ok _, Ok _ => True
  | Raise e1, Raise e2 => e1 = e2
  | _, _ => False
  end.
Proof.
  revert fs. induction p as [|name p IH]; intros fs; simpl.
  - by destruct fs.
  - destruct fs as [c0|r entries|r names]; [done | | done].
    destruct (assoc name entries) as [child|].
    + specialize (IH child).
      by destruct (write_path child p c1), (write_path child p c2).
    + by destruct p.
Qed.

(** Writing over what has just been written is writing once. *)
Lemma write_path_twice fs p c1 c2 fs1 :
  write_path fs p c1 = Ok fs1 -> write_path fs1 p c2 = write_path fs p c2.
Proof.
  revert fs fs1. induction p as [|name p IH]; intros fs fs1; simpl.
  - destruct fs; [by intros [= <-] | discriminate | discriminate].
  - destruct fs as [c0|r entries|r names]; [discriminate | | discriminate].
    destruct (assoc name entries) as [child|] eqn:Hchild.
    + destruct (write_path child p c1) as [child1|e] eqn:Hw; simpl; [|discriminate].
      intros [= <-]. rewrite assoc_replace_entry by eauto.
      rewrite (IH _ _ Hw).
      destruct (write_path child p c2); simpl; [|reflexivity].
      by rewrite replace_entry_twice.
    + destruct p; [|discriminate]. intros [= <-].
      rewrite assoc_app_fresh by done. simpl.
      by rewrite replace_entry_app_fresh.
Qed.

Lemma write_path_existing fs p c0 c :
  lookup_path fs p = Some (File c0) -> exists fs', write_path fs p c = Ok fs'.
Proof.
  revert fs. induction p as [|name p IH]; intros fs; simpl.
  - intros [= ->]. eauto.
  - destruct fs as [c1|r entries|r names]; [discriminate | | discriminate].
    destruct (assoc name entries) as [child|]; [|discriminate].
    intros Hchild. destruct (IH _ Hchild) as [child' ->]. simpl. eauto.
Qed.

Lemma write_path_new fs dir r entries name c :
  lookup_path fs dir = Some (Dir r entries) ->
  assoc name entries = None ->
  exists fs', write_path fs (dir ++ [name]) c = Ok fs'.
Proof.
  revert fs. induction dir as [|d dir IH]; intros fs; simpl.
  - intros [= ->] ->. eauto.
  - destruct fs as [c1|r1 es1|r1 ns1]; [discriminate | | discriminate].
    destruct (assoc d es1) as [child|]; [|discriminate].
    intros Hchild Hname. destruct (IH _ Hchild Hname) as [child' ->]. simpl. eauto.
Qed.

(** On a healthy disk opening and dumping amount to one write. *)
Lemma open_w_dump_healthy fs p doc :
  open_w_dump Healthy fs p doc
  = match write_path fs p (Json doc) with
    | Ok fs' => (fs', Ok ())
    | Raise e => (fs, Raise e)
    end.
Proof.
  unfold open_w_dump.
  pose proof (write_path_outcome fs p NotJson (Json doc)) as Hsame.
  destruct (write_path fs p NotJson) as [opened|e] eqn:Hopen.
  - rewrite (write_path_twice _ _ _ _ _ Hopen).
    by destruct (write_path fs p (Json doc)).
  - destruct (write_path fs p (Json doc)); [done | by subst].
Qed.

Lemma open_w_dump_returns d fs p doc fs' :
  open_w_dump d fs p doc = (fs', Ok ()) ->
  d = Healthy /\ write_path fs p (Json doc) = Ok fs'.
Proof.
  destruct d.
  - rewrite open_w_dump_healthy.
    destruct (write_path fs p (Json doc)); [by intros [= ->] | discriminate].
  - discriminate.
  - unfold open_w_dump. by destruct (write_path fs p NotJson).
Qed.

Lemma open_w_dump_raises d fs p doc fs' e :
  open_w_dump d fs p doc = (fs', Raise e) -> d <> Full -> fs' = fs.
Proof.
  destruct d; [|by intros [= <- _]|done].
  rewrite open_w_dump_healthy.
  destruct (write_path fs p (Json doc)); [discriminate | by intros [= <- _]].
Qed.

(** ** The rolling history store *)

(** C6. When the history file exists and its contents do not load as
    JSON, [truncate_file] raises the loader's exception and leaves the file
    system as it was: no fresh history is started in its place. *)
Theorem unreadable_history_is_fatal
    (now_utc : datetime) (d : disk) (fs : node) (file_path : path)
    (max_items : Z) (new_sample : number) (peers : list string)
    (c : content) (e : exn) :
  lookup_path fs file_path = Some (File c) ->
  json_load c = Raise e ->
  truncate_file now_utc d fs file_path max_items new_sample peers
  = (fs, Raise e).
Proof.
  intros Hfile Hload. unfold truncate_file, path_exists, open_r.
  rewrite (resolve_file _ _ _ Hfile). simpl.
  destruct c; simpl in *; try discriminate; by injection Hload as <-.
Qed.

Lemma unreadable_history_is_fatal_witness :
  truncate_file Fixtures.noon Healthy
    (Dir true [("public", Dir true [("cpu_tracker.json", File NotJson)])])
    Fixtures.history_path 360 (Float 30) ["x"]
  = (Dir true [("public", Dir true [("cpu_tracker.json", File NotJson)])],
     Raise JSONDecodeError).
Proof.
  apply (unreadable_history_is_fatal _ _ _ _ _ _ _ NotJson); reflexivity.
Defined.

Example history_without_items_is_fatal :
  truncate_file Fixtures.noon Healthy
    (Dir true [("public", Dir true [("cpu_tracker.json", File (Json (JObj [])))])])
    Fixtures.history_path 360 (Float 30) ["x"]
  = (Dir true [("public", Dir true [("cpu_tracker.json", File (Json (JObj [])))])],
     Raise KeyError).
Proof. reflexivity. Qed.

(** C7. After a write that succeeds the file is a history document whose
    [peers] are the active peers of this run, whatever the file held
    before. *)
Theorem peers_are_overwritten
    (now_utc : datetime) (d : disk) (fs : node) (file_path : path)
    (max_items : Z) (new_sample : number) (peers : list string) (fs' : node) :
  truncate_file now_utc d fs file_path max_items new_sample peers
  = (fs', Ok ()) ->
  exists items, persisted fs' file_path = Some (items, JStr <$> peers).
Proof.
  unfold truncate_file.
  match goal with
  | |- context [match ?l with Ok _ => _ | Raise _ => _ end] =>
      destruct l as [history|e]; [|discriminate]
  end.
  intros [_ Hw]%open_w_dump_returns.
  exists history. unfold persisted. by rewrite (write_path_lookup _ _ _ _ Hw).
Qed.

Lemma peers_are_overwritten_witness :
  persisted Fixtures.site_with_history Fixtures.history_path
  = Some ([entry_of (Fixtures.req 1 10); entry_of (Fixtures.req 2 20)], [JStr "x"])
  /\ exists fs',
       truncate_file Fixtures.noon Healthy Fixtures.site_with_history
         Fixtures.history_path 3 (Int (-1)) ["y"; "z"] = (fs', Ok ())
       /\ exists items,
            persisted fs' Fixtures.history_path = Some (items, [JStr "y"; JStr "z"]).
Proof.
  split; [reflexivity|].
  eexists. split; [reflexivity|].
  apply (peers_are_overwritten Fixtures.noon Healthy Fixtures.site_with_history
           Fixtures.history_path 3 (Int (-1)) ["y"; "z"]).
  reflexivity.
Defined.

(** C8, as the code has it: the claim fails when the disk gives out while
    the new contents are being written. The file has been emptied by the
    opening, and what is left of the history is not a JSON document. *)
Lemma failed_write_truncates_history :
  ~ (forall now_utc d fs file_path max_items new_sample peers fs' e,
       truncate_file now_utc d fs file_path max_items new_sample peers
       = (fs', Raise e) ->
       lookup_path fs' file_path = lookup_path fs file_path).
Proof.
  intros Hclaim.
  specialize (Hclaim Fixtures.noon Full Fixtures.site_with_history
                Fixtures.history_path 3 (Float 30) ["x"] _ OSError eq_refl).
  vm_compute in Hclaim. discriminate Hclaim.
Qed.

(** C8, amended. A failed update that did not fail in the middle of the
    write (the history did not load or has no list of items, or the file
    could not be opened for writing) leaves the file system, and so the
    history file, as it was. *)
Theorem failed_update_before_writing_changes_nothing
    (now_utc : datetime) (d : disk) (fs : node) (file_path : path)
    (max_items : Z) (new_sample : number) (peers : list string)
    (fs' : node) (e : exn) :
  truncate_file now_utc d fs file_path max_items new_sample peers
  = (fs', Raise e) ->
  d <> Full ->
  fs' = fs.
Proof.
  unfold truncate_file.
  match goal with
  | |- context [match ?l with Ok _ => _ | Raise _ => _ end] =>
      destruct l as [history|e']; [|by intros [= <- _]]
  end.
  apply open_w_dump_raises.
Qed.

Lemma failed_update_before_writing_changes_nothing_witness :
  truncate_file Fixtures.noon Denied Fixtures.site_with_history
    Fixtures.history_path 3 (Float 30) ["x"]
  = (Fixtures.site_with_history, Raise PermissionError)
  /\ Denied <> Full.
Proof.
  assert (Hrun : exists fs',
             truncate_file Fixtures.noon Denied Fixtures.site_with_history
               Fixtures.history_path 3 (Float 30) ["x"]
             = (fs', Raise PermissionError)) by (eexists; reflexivity).
  destruct Hrun as [fs' Hrun].
  assert (Hd : Denied <> Full) by discriminate.
  split; [|exact Hd].
  rewrite Hrun. f_equal.
  exact (failed_update_before_writing_changes_nothing _ _ _ _ _ _ _ _ _ Hrun Hd).
Defined.

(** C4, as the code has it. With [max_items = 0] nothing is ever dropped:
    the first write stores its sample, and [history[-0:]] is the whole
    list. Two writes leave two entries where the capacity allows none. *)
Theorem zero_capacity_keeps_everything :
  persisted (write_all Fixtures.empty_site Fixtures.history_path 0
               [Fixtures.req 1 10]).1 Fixtures.history_path
  = Some ([entry_of (Fixtures.req 1 10)], [JStr "x"])
  /\ persisted (write_all Fixtures.empty_site Fixtures.history_path 0
                  [Fixtures.req 1 10; Fixtures.req 2 20]).1 Fixtures.history_path
     = Some ([entry_of (Fixtures.req 1 10); entry_of (Fixtures.req 2 20)],
             [JStr "x"]).
Proof. split; reflexivity. Qed.

(** *** The capacity law for a capacity of at least one *)

Lemma lastn_all {A} n (l : list A) : (length l <= n)%nat -> lastn n l = l.
Proof. intros H. unfold lastn. by replace (length l - n)%nat with 0%nat by lia. Qed.

Lemma length_lastn {A} n (l : list A) : length (lastn n l) = (n `min` length l)%nat.
Proof. unfold lastn. rewrite length_drop. lia. Qed.

Lemma lastn_app_lastn {A} n (a b : list A) :
  lastn n (lastn n a ++ b) = lastn n (a ++ b).
Proof.
  unfold lastn. rewrite !drop_app, drop_drop, !length_app, !length_drop.
  f_equal; f_equal; lia.
Qed.

(** [history[-max_items:]] when the history is longer than a positive
    [max_items], and the history itself otherwise: the last [max_items]. *)
Lemma capped_history {A} (max_items : Z) (history : list A) :
  1 <= max_items ->
  (if Z.of_nat (length history) >? max_items
   then py_slice_from (- max_items) history
   else history)
  = lastn (Z.to_nat max_items) history.
Proof.
  intros Hk. destruct (Z.gtb_spec (Z.of_nat (length history)) max_items) as [Hgt|Hle].
  - unfold py_slice_from, lastn.
    destruct (Z.ltb_spec (- max_items) 0) as [_|?]; [|lia].
    f_equal. lia.
  - symmetry. apply lastn_all. lia.
Qed.

Lemma ok_if {A} (b : bool) (x y : A) :
  (if b then Ok x else Ok y) = Ok (if b then x else y).
Proof. by destruct b. Qed.

Section Rolling.

Variables (file_path : path) (max_items : Z).
Hypothesis capacity : 1 <= max_items.

Lemma truncate_file_appends now_utc fs items peers0 new_sample peers :
  lookup_path fs file_path = Some (File (Json (history_document items peers0))) ->
  exists fs',
    truncate_file now_utc Healthy fs file_path max_items new_sample peers
    = (fs', Ok ())
    /\ lookup_path fs' file_path
       = Some (File (Json (history_document
            (lastn (Z.to_nat max_items)
                   (items ++ [sample_entry new_sample (strftime now_utc)]))
            peers))).
Proof.
  intros Hfile. unfold truncate_file, path_exists, open_r.
  rewrite (resolve_file _ _ _ Hfile). simpl. rewrite ok_if, capped_history by done.
  rewrite open_w_dump_healthy.
  edestruct (write_path_existing fs file_path) as [fs' Hw]; [exact Hfile|].
  rewrite Hw. exists fs'. split; [reflexivity|]. by apply write_path_lookup in Hw.
Qed.

Lemma write_all_existing reqs :
  forall fs items peers0,
    lookup_path fs file_path = Some (File (Json (history_document items peers0))) ->
    Z.of_nat (length items) <= max_items ->
    exists fs',
      write_all fs file_path max_items reqs = (fs', Ok ())
      /\ lookup_path fs' file_path
         = Some (File (Json (history_document
              (lastn (Z.to_nat max_items) (items ++ (entry_of <$> reqs)))
              (peers_after peers0 reqs)))).
Proof.
  induction reqs as [|r reqs IH]; intros fs items peers0 Hfile Hlen; simpl.
  - exists fs. split; [reflexivity|].
    by rewrite app_nil_r, lastn_all by lia.
  - destruct (truncate_file_appends (written_at r) fs items peers0 (sample r)
                (peers_then r) Hfile) as (fs1 & -> & Hfile1).
    destruct (IH _ _ _ Hfile1) as (fs' & -> & Hfile').
    { rewrite length_lastn. lia. }
    exists fs'. split; [reflexivity|].
    rewrite Hfile'. unfold peers_after. simpl.
    rewrite lastn_app_lastn, <- app_assoc. reflexivity.
Qed.

End Rolling.

(** X5. The capacity law. In a directory that has no history file yet,
    [N >= 1] successive writes with a capacity [max_items >= 1] all succeed
    and leave, oldest first, the last [max_items] of the [N] samples, that
    is [min N max_items] entries, together with the peers of the last
    write. *)
Theorem rolling_history_law
    (fs : node) (dir : path) (r : bool) (entries : list (string * node))
    (name : string) (max_items : Z) (first : write_request)
    (reqs : list write_request) :
  lookup_path fs dir = Some (Dir r entries) ->
  assoc name entries = None ->
  1 <= max_items ->
  exists fs' items,
    write_all fs (dir ++ [name]) max_items (first :: reqs) = (fs', Ok ())
    /\ persisted fs' (dir ++ [name])
       = Some (items, JStr <$> peers_after (peers_then first) reqs)
    /\ items = lastn (Z.to_nat max_items) (entry_of <$> first :: reqs)
    /\ Z.of_nat (length items) = Z.min (Z.of_nat (length (first :: reqs))) max_items.
Proof.
  intros Hdir Hname Hk.
  assert (Hnone : lookup_path fs (dir ++ [name]) = None).
  { rewrite lookup_path_app, Hdir. simpl. by rewrite Hname. }
  destruct (write_path_new fs dir r entries name
              (Json (history_document [entry_of first] (peers_then first)))
              Hdir Hname) as [fs1 Hw].
  assert (Hfirst : truncate_file (written_at first) Healthy fs (dir ++ [name])
                     max_items (sample first) (peers_then first) = (fs1, Ok ())).
  { unfold truncate_file, path_exists. rewrite (resolve_absent _ _ Hnone). simpl.
    rewrite open_w_dump_healthy. fold (entry_of first). by rewrite Hw. }
  apply write_path_lookup in Hw.
  destruct (write_all_existing (dir ++ [name]) max_items Hk reqs fs1 _ _ Hw)
    as (fs' & Hall & Hfile); [simpl; lia|].
  exists fs', (lastn (Z.to_nat max_items) (entry_of <$> first :: reqs)).
  simpl write_all. rewrite Hfirst, Hall. unfold persisted. rewrite Hfile.
  repeat split. rewrite length_lastn, length_fmap. simpl length. lia.
Qed.

Lemma rolling_history_law_witness :
  exists fs' items,
    write_all Fixtures.empty_site Fixtures.history_path 3
      [Fixtures.req 1 10; Fixtures.req 2 20; Fixtures.req 3 30; Fixtures.req 4 40]
    = (fs', Ok ())
    /\ persisted fs' Fixtures.history_path = Some (items, [JStr "x"])
    /\ items = [entry_of (Fixtures.req 2 20); entry_of (Fixtures.req 3 30);
                entry_of (Fixtures.req 4 40)]
    /\ Z.of_nat (length items) = 3.
Proof.
  exact (rolling_history_law Fixtures.empty_site ["public"] true []
           "cpu_tracker.json" 3 (Fixtures.req 1 10)
           [Fixtures.req 2 20; Fixtures.req 3 30; Fixtures.req 4 40]
           eq_refl eq_refl ltac:(lia)).
Defined.

(** * Further properties *)

(** ** The network aggregator on clean peer lists *)

(** X1. When every peer of the list is absent, text that is not JSON, an
    object without [timestamp], stale, or fresh with a [cpu] that converts
    (no file that is unreadable or does not decode), the aggregator
    returns the sum of the fresh readings, added in enumeration order,
    divided by their number, together with the fresh peers in enumeration
    order; when there is no fresh reading it returns [-1] and no peer. *)
Theorem aggregation_of_clean_peers
    (float_of_str : string -> option float) (clock : nat -> datetime)
    (fs : node) (root : path) (peers : list string) (views : list peer_view) :
  classified float_of_str fs root clock 0 peers views ->
  get_network_cpu_mean float_of_str clock fs root peers
  = Ok (mean_of (omap reading views), contributors peers views)
  /\ (omap reading views = [] ->
      get_network_cpu_mean float_of_str clock fs root peers = Ok (Int (-1), [])).
Proof.
  intros Hc. split.
  - by apply get_network_cpu_mean_classified.
  - by apply sentinel_without_contribution.
Qed.

Lemma aggregation_of_clean_peers_witness :
  classified Fixtures.no_strings Fixtures.datasites ["datasites"]
    Fixtures.at_noon 0 ["A"; "B"; "Z"; "C"]
    [Contributes 10; Skipped; Skipped; Contributes 20]
  /\ get_network_cpu_mean Fixtures.no_strings Fixtures.at_noon
       Fixtures.datasites ["datasites"] ["A"; "B"; "Z"; "C"]
     = Ok (Float 15, ["A"; "C"]).
Proof.
  assert (Hc : classified Fixtures.no_strings Fixtures.datasites ["datasites"]
                 Fixtures.at_noon 0 ["A"; "B"; "Z"; "C"]
                 [Contributes 10; Skipped; Skipped; Contributes 20]).
  { constructor; [eapply status_fresh; reflexivity|].
    constructor; [by apply status_invalid_json|].
    constructor; [by apply status_absent|].
    constructor; [eapply status_fresh; reflexivity|].
    constructor. }
  split; [exact Hc|].
  exact (proj1 (aggregation_of_clean_peers _ _ _ _ _ _ Hc)).
Defined.

(** X2. The aggregation is fail-fast. After peers that are skipped or
    contribute, a peer whose timestamp, a string of ASCII characters, does
    not parse makes the whole call raise [ValueError], and a fresh peer
    whose object has no [cpu] makes it raise [KeyError], whatever the peers
    after it hold and whatever was accumulated before. *)
Theorem first_fault_aborts_aggregation
    (float_of_str : string -> option float) (clock : nat -> datetime)
    (fs : node) (root : path) (before : list string) (views : list peer_view)
    (peer : string) (after : list string)
    (kvs : list (string * json)) (s : string) :
  classified float_of_str fs root clock 0 before views ->
  lookup_path fs (tracker_file root peer) = Some (File (Json (JObj kvs))) ->
  assoc "timestamp" kvs = Some (JStr s) ->
  (ascii_only s = true ->
   strptime s = None ->
   get_network_cpu_mean float_of_str clock fs root (before ++ peer :: after)
   = Raise ValueError)
  /\ (forall ts,
        strptime s = Some ts ->
        datetime_sub (clock (length before)) ts < timedelta_seconds 60 ->
        assoc "cpu" kvs = None ->
        get_network_cpu_mean float_of_str clock fs root (before ++ peer :: after)
        = Raise KeyError).
Proof.
  intros Hc Hfile Hts. split.
  - intros _ Hparse. apply (get_network_cpu_mean_aborts _ _ _ _ _ views); [done|].
    intros st. by apply (visit_unparsable_timestamp _ _ _ _ _ _ kvs s).
  - intros ts Hparse Hage Hcpu.
    apply (get_network_cpu_mean_aborts _ _ _ _ _ views); [done|].
    intros st. by apply (visit_without_cpu _ _ _ _ _ _ kvs s ts).
Qed.

Lemma first_fault_aborts_aggregation_witness :
  get_network_cpu_mean Fixtures.no_strings Fixtures.at_noon
    (Fixtures.datasites_with Fixtures.undated) ["datasites"] ["A"; "B"; "C"]
  = Raise ValueError.
Proof.
  assert (Hc : classified Fixtures.no_strings
                 (Fixtures.datasites_with Fixtures.undated) ["datasites"]
                 Fixtures.at_noon 0 ["A"] [Contributes 10]).
  { constructor; [eapply status_fresh; reflexivity | constructor]. }
  exact (proj1 (first_fault_aborts_aggregation Fixtures.no_strings
                  Fixtures.at_noon (Fixtures.datasites_with Fixtures.undated)
                  ["datasites"] ["A"] [Contributes 10] "B" ["C"] _ _
                  Hc eq_refl eq_refl) eq_refl eq_refl).
Defined.

(** ** The staleness filter *)

(** X3. The timestamp format of the history file is the one the staleness
    filter reads: the text [strftime] writes for any valid date from the
    year 1000 on parses back to that date, microseconds dropped, so
    [is_updated] accepts it and decides by its age alone. (Of an earlier
    year the C library writes fewer than four digits, which do not parse.) *)
Theorem written_timestamps_are_read_back (now d : datetime) :
  valid_datetime d = true ->
  1000 <= year d ->
  strptime (strftime d) = Some (on_the_second d)
  /\ is_updated now (strftime d)
     = Ok (datetime_sub now (on_the_second d) <? timedelta_seconds 60).
Proof.
  intros Hvalid Hyear. split.
  - by apply strptime_strftime.
  - by apply is_updated_strftime.
Qed.

Lemma written_timestamps_are_read_back_witness :
  is_updated (DateTime 2025 1 1 0 0 10 5) (strftime (DateTime 2024 12 31 23 59 59 999999))
  = Ok true.
Proof.
  exact (proj2 (written_timestamps_are_read_back (DateTime 2025 1 1 0 0 10 5)
                  (DateTime 2024 12 31 23 59 59 999999) eq_refl
                  ltac:(by compute))).
Defined.

Lemma datetime_sub_chain a b c :
  datetime_sub a c = datetime_sub a b + datetime_sub b c.
Proof. unfold datetime_sub. lia. Qed.

(** X4. Staleness is monotone in the clock: a timestamp found stale stays
    stale at every later reading of the clock, and a timestamp found fresh
    was fresh at every earlier one. *)
Theorem stale_stays_stale (now later : datetime) (s : string) :
  0 <= datetime_sub later now ->
  (is_updated now s = Ok false -> is_updated later s = Ok false)
  /\ (is_updated later s = Ok true -> is_updated now s = Ok true).
Proof.
  intros Hlater. unfold is_updated.
  destruct (strptime s) as [ts|]; [|by split].
  rewrite (datetime_sub_chain later now ts).
  destruct (Z.ltb_spec (datetime_sub now ts) (timedelta_minutes 1)),
           (Z.ltb_spec (datetime_sub later now + datetime_sub now ts)
                       (timedelta_minutes 1));
    split; intros; try done; lia.
Qed.

Lemma stale_stays_stale_witness :
  is_updated (DateTime 2024 10 5 12 1 0 0) "2024-10-05 12:00:00" = Ok false
  /\ is_updated (DateTime 2024 10 6 0 0 0 0) "2024-10-05 12:00:00" = Ok false.
Proof.
  assert (Hstale : is_updated (DateTime 2024 10 5 12 1 0 0) "2024-10-05 12:00:00"
                   = Ok false) by reflexivity.
  split; [exact Hstale|].
  assert (Hlater : 0 <= datetime_sub (DateTime 2024 10 6 0 0 0 0)
                                     (DateTime 2024 10 5 12 1 0 0))
    by (vm_compute; discriminate).
  exact (proj1 (stale_stays_stale _ _ "2024-10-05 12:00:00" Hlater) Hstale).
Defined.

(** ** The rolling history store, write by write *)

Lemma lastn_snoc {A} n (l : list A) x :
  lastn (S n) (l ++ [x]) = lastn n l ++ [x].
Proof.
  unfold lastn. rewrite length_app, drop_app. simpl.
  replace (length l + 1 - S n)%nat with (length l - n)%nat by lia.
  by replace (length l - n - length l)%nat with 0%nat by lia.
Qed.

Lemma truncate_file_on_object now_utc fs file_path max_items new_sample peers
    kvs items :
  lookup_path fs file_path = Some (File (Json (JObj kvs))) ->
  assoc "items" kvs = Some (JArr items) ->
  exists fs',
    truncate_file now_utc Healthy fs file_path max_items new_sample peers
    = (fs', Ok ())
    /\ persisted fs' file_path
       = Some ((let history := items ++ [sample_entry new_sample (strftime now_utc)] in
                if Z.of_nat (length history) >? max_items
                then py_slice_from (- max_items) history else history),
               JStr <$> peers).
Proof.
  intros Hfile Hitems. unfold truncate_file, path_exists, open_r.
  rewrite (resolve_file _ _ _ Hfile). simpl. rewrite Hitems. simpl. rewrite ok_if.
  rewrite open_w_dump_healthy.
  edestruct (write_path_existing fs file_path) as [fs' Hw]; [exact Hfile|].
  rewrite Hw. exists fs'. split; [reflexivity|].
  unfold persisted. by rewrite (write_path_lookup _ _ _ _ Hw).
Qed.

(** X6. One write on an existing history, for a capacity of at least one.
    Whatever JSON object the file holds, provided [items] is a list (of any
    length, with or without [peers] or other keys), the write succeeds on a
    healthy disk and leaves exactly two keys: [items], the last [max_items]
    of the old items followed by the new sample, which is therefore always
    the last entry, and [peers], the peers of this call. *)
Theorem write_appends_and_trims
    (now_utc : datetime) (fs : node) (file_path : path) (max_items : Z)
    (new_sample : number) (peers : list string)
    (kvs : list (string * json)) (items : list json) :
  lookup_path fs file_path = Some (File (Json (JObj kvs))) ->
  assoc "items" kvs = Some (JArr items) ->
  1 <= max_items ->
  exists fs' history,
    truncate_file now_utc Healthy fs file_path max_items new_sample peers
    = (fs', Ok ())
    /\ persisted fs' file_path = Some (history, JStr <$> peers)
    /\ history = lastn (Z.to_nat max_items)
                   (items ++ [sample_entry new_sample (strftime now_utc)])
    /\ Z.of_nat (length history) <= max_items
    /\ last history = Some (sample_entry new_sample (strftime now_utc)).
Proof.
  intros Hfile Hitems Hk.
  destruct (truncate_file_on_object now_utc fs file_path max_items new_sample
              peers kvs items Hfile Hitems) as (fs' & Hrun & Hfile').
  cbv zeta in Hfile'. rewrite capped_history in Hfile' by done.
  eexists fs', _. repeat split; [exact Hrun | exact Hfile' | |].
  - rewrite length_lastn. lia.
  - destruct (Z.to_nat max_items) as [|n] eqn:Hn; [lia|].
    by rewrite lastn_snoc, last_snoc.
Qed.

Lemma write_appends_and_trims_witness :
  exists fs' history,
    truncate_file Fixtures.noon Healthy Scenes.legacy_history
      Fixtures.history_path 2 (Int (-1)) ["x"]
    = (fs', Ok ())
    /\ persisted fs' Fixtures.history_path = Some (history, [JStr "x"])
    /\ history = [JStr "old"; sample_entry (Int (-1)) "2024-10-05 12:00:30"]
    /\ Z.of_nat (length history) <= 2
    /\ last history = Some (sample_entry (Int (-1)) "2024-10-05 12:00:30").
Proof.
  exact (write_appends_and_trims Fixtures.noon Scenes.legacy_history
           Fixtures.history_path 2 (Int (-1)) ["x"] _ _
           eq_refl eq_refl ltac:(lia)).
Defined.

(** X7. With a capacity of zero or less nothing is trimmed to size: the
    write keeps the old items and the new sample except for the
    [- max_items] oldest ones, so with [max_items = 0] the history grows by
    one entry at every write. *)
Theorem nonpositive_capacity_drops_from_the_front
    (now_utc : datetime) (fs : node) (file_path : path) (max_items : Z)
    (new_sample : number) (peers : list string)
    (kvs : list (string * json)) (items : list json) :
  lookup_path fs file_path = Some (File (Json (JObj kvs))) ->
  assoc "items" kvs = Some (JArr items) ->
  max_items <= 0 ->
  exists fs',
    truncate_file now_utc Healthy fs file_path max_items new_sample peers
    = (fs', Ok ())
    /\ persisted fs' file_path
       = Some (drop (Z.to_nat (- max_items))
                 (items ++ [sample_entry new_sample (strftime now_utc)]),
               JStr <$> peers).
Proof.
  intros Hfile Hitems Hk.
  destruct (truncate_file_on_object now_utc fs file_path max_items new_sample
              peers kvs items Hfile Hitems) as (fs' & Hrun & Hfile').
  exists fs'. split; [exact Hrun|]. rewrite Hfile'. cbv zeta. do 2 f_equal.
  set (history := items ++ _).
  assert (Hlen : (0 < length history)%nat)
    by (unfold history; rewrite length_app; simpl; lia).
  destruct (Z.gtb_spec (Z.of_nat (length history)) max_items); [|lia].
  unfold py_slice_from. destruct (Z.ltb_spec (- max_items) 0); [lia|].
  destruct (Z.le_gt_cases (- max_items) (Z.of_nat (length history))).
  - by rewrite Z.min_l by done.
  - rewrite Z.min_r by lia. rewrite Nat2Z.id, drop_all.
    symmetry. apply drop_ge. lia.
Qed.

Lemma nonpositive_capacity_drops_from_the_front_witness :
  exists fs',
    truncate_file Fixtures.noon Healthy Fixtures.site_with_history
      Fixtures.history_path (-1) (Float 30) ["x"]
    = (fs', Ok ())
    /\ persisted fs' Fixtures.history_path
       = Some ([entry_of (Fixtures.req 2 20);
                sample_entry (Float 30) "2024-10-05 12:00:30"], [JStr "x"]).
Proof.
  exact (nonpositive_capacity_drops_from_the_front Fixtures.noon
           Fixtures.site_with_history Fixtures.history_path (-1) (Float 30)
           ["x"] _ _ eq_refl eq_refl ltac:(lia)).
Defined.

(** ** What a history write leaves alone *)

Lemma assoc_replace_entry_ne {A} k k' (v : A) kvs :
  k <> k' -> assoc k (replace_entry k' v kvs) = assoc k kvs.
Proof.
  intros Hne. induction kvs as [|[k0 v0] kvs IH]; simpl; [reflexivity|].
  destruct (String.eqb_spec k' k0) as [->|Hk0]; simpl.
  - by apply String.eqb_neq in Hne as ->.
  - by rewrite IH.
Qed.

Lemma assoc_app_ne {A} k k' (v : A) kvs :
  k <> k' -> assoc k (kvs ++ [(k', v)]) = assoc k kvs.
Proof.
  intros Hne. induction kvs as [|[k0 v0] kvs IH]; simpl.
  - by apply String.eqb_neq in Hne as ->.
  - by rewrite IH.
Qed.

(** A write at [p] changes no path other than [p] and the directories
    above it. *)
Lemma write_path_frame fs p c fs' q :
  write_path fs p c = Ok fs' ->
  ~ q `prefix_of` p ->
  lookup_path fs' q = lookup_path fs q.
Proof.
  revert fs fs' q. induction p as [|name p IH]; intros fs fs' q; simpl.
  - destruct fs as [c0| |]; [|discriminate|discriminate]. intros [= <-] Hq.
    destruct q as [|x q]; [by destruct Hq; apply prefix_nil | reflexivity].
  - destruct fs as [c0|r entries|r names]; [discriminate | | discriminate].
    intros Hw Hq. destruct q as [|x q]; [by destruct Hq; apply prefix_nil|].
    destruct (decide (x = name)) as [->|Hx].
    + assert (Hq' : ~ q `prefix_of` p) by (intros ?; by apply Hq, prefix_cons).
      destruct (assoc name entries) as [child|] eqn:Hchild.
      * destruct (write_path child p c) as [child'|e] eqn:Hw'; [|discriminate].
        simpl in Hw. injection Hw as <-. simpl.
        rewrite assoc_replace_entry, Hchild by eauto. by apply (IH child).
      * destruct p; [|discriminate]. injection Hw as <-. simpl.
        rewrite assoc_app_fresh, Hchild by done.
        destruct q as [|y q]; [by destruct Hq'; apply prefix_nil | reflexivity].
    + destruct (assoc name entries) as [child|] eqn:Hchild.
      * destruct (write_path child p c) as [child'|e]; [|discriminate].
        simpl in Hw. injection Hw as <-. simpl.
        by rewrite assoc_replace_entry_ne.
      * destruct p; [|discriminate]. injection Hw as <-. simpl.
        by rewrite assoc_app_ne.
Qed.

(** A write opens no way and bars none. *)
Lemma write_path_barred fs p c fs' q :
  write_path fs p c = Ok fs' -> barred fs' q = barred fs q.
Proof.
  revert fs fs' q. induction p as [|name p IH]; intros fs fs' q; simpl.
  - destruct fs as [c0| |]; [|discriminate|discriminate]. intros [= <-].
    by destruct q.
  - destruct fs as [c0|r entries|r names]; [discriminate | | discriminate].
    intros Hw. destruct q as [|x q]; [reflexivity|].
    destruct (decide (x = name)) as [->|Hx].
    + destruct (assoc name entries) as [child|] eqn:Hchild.
      * destruct (write_path child p c) as [child'|e] eqn:Hw'; [|discriminate].
        simpl in Hw. injection Hw as <-. simpl.
        rewrite assoc_replace_entry, Hchild by eauto. by apply (IH child).
      * destruct p; [|discriminate]. injection Hw as <-. simpl.
        rewrite assoc_app_fresh, Hchild by done. by destruct q.
    + destruct (assoc name entries) as [child|] eqn:Hchild.
      * destruct (write_path child p c) as [child'|e]; [|discriminate].
        simpl in Hw. injection Hw as <-. simpl.
        by rewrite assoc_replace_entry_ne.
      * destruct p; [|discriminate]. injection Hw as <-. simpl.
        by rewrite assoc_app_ne.
Qed.

Lemma open_w_dump_frame d fs p doc fs' r q :
  open_w_dump d fs p doc = (fs', r) ->
  ~ q `prefix_of` p ->
  lookup_path fs' q = lookup_path fs q.
Proof.
  unfold open_w_dump. intros Hrun Hq.
  destruct d; [| by injection Hrun as <- |].
  - destruct (write_path fs p NotJson) as [opened|e] eqn:Hopen;
      [|by injection Hrun as <-].
    destruct (write_path opened p (Json doc)) as [written|e] eqn:Hdump;
      injection Hrun as <- _.
    + rewrite (write_path_frame _ _ _ _ _ Hdump Hq).
      by apply (write_path_frame _ _ _ _ _ Hopen).
    + by apply (write_path_frame _ _ _ _ _ Hopen).
  - destruct (write_path fs p NotJson) as [opened|e] eqn:Hopen;
      injection Hrun as <- _; [|done].
    by apply (write_path_frame _ _ _ _ _ Hopen).
Qed.

Lemma open_w_dump_barred d fs p doc fs' r q :
  open_w_dump d fs p doc = (fs', r) -> barred fs' q = barred fs q.
Proof.
  unfold open_w_dump. intros Hrun.
  destruct d; [| by injection Hrun as <- |].
  - destruct (write_path fs p NotJson) as [opened|e] eqn:Hopen;
      [|by injection Hrun as <-].
    destruct (write_path opened p (Json doc)) as [written|e] eqn:Hdump;
      injection Hrun as <- _.
    + rewrite (write_path_barred _ _ _ _ _ Hdump).
      by apply (write_path_barred _ _ _ _ _ Hopen).
    + by apply (write_path_barred _ _ _ _ _ Hopen).
  - destruct (write_path fs p NotJson) as [opened|e] eqn:Hopen;
      injection Hrun as <- _; [|done].
    by apply (write_path_barred _ _ _ _ _ Hopen).
Qed.

Lemma truncate_file_frame now_utc d fs file_path max_items new_sample peers
    fs' r q :
  truncate_file now_utc d fs file_path max_items new_sample peers = (fs', r) ->
  ~ q `prefix_of` file_path ->
  lookup_path fs' q = lookup_path fs q.
Proof.
  unfold truncate_file.
  match goal with
  | |- context [match ?l with Ok _ => _ | Raise _ => _ end] =>
      destruct l as [history|e]; [|by intros [= <- _]]
  end.
  apply open_w_dump_frame.
Qed.

Lemma truncate_file_resolve now_utc d fs file_path max_items new_sample peers
    fs' r q :
  truncate_file now_utc d fs file_path max_items new_sample peers = (fs', r) ->
  ~ q `prefix_of` file_path ->
  resolve fs' q = resolve fs q.
Proof.
  intros Hrun Hq. unfold resolve.
  rewrite (truncate_file_frame _ _ _ _ _ _ _ _ _ _ Hrun Hq).
  replace (barred fs' q) with (barred fs q); [reflexivity|].
  revert Hrun. unfold truncate_file.
  match goal with
  | |- context [match ?l with Ok _ => _ | Raise _ => _ end] =>
      destruct l as [history|e]; [|by intros [= <- _]]
  end.
  intros Hrun. symmetry. by apply (open_w_dump_barred _ _ _ _ _ _ _ Hrun).
Qed.

(** X8. [truncate_file] touches its own file only. Whether the call
    succeeds, raises or is cut short by the disk, every path other than the
    history file and the directories leading to it holds afterwards what
    it held before. *)
Theorem history_write_touches_only_its_file
    (now_utc : datetime) (d : disk) (fs : node) (file_path : path)
    (max_items : Z) (new_sample : number) (peers : list string)
    (fs' : node) (r : result unit) (q : path) :
  truncate_file now_utc d fs file_path max_items new_sample peers = (fs', r) ->
  ~ q `prefix_of` file_path ->
  lookup_path fs' q = lookup_path fs q.
Proof. apply truncate_file_frame. Qed.

(** On the host of [Scenes.world] the disk fails during the first write of
    the history: the new file is left broken, and the page next to it is
    the page that was there. *)
Lemma history_write_touches_only_its_file_witness :
  lookup_path
    (truncate_file Fixtures.noon Full Scenes.world
       (Scenes.me ++ ["public"; "cpu_tracker.json"]) 360 (Float 30) ["x"]).1
    (Scenes.me ++ ["public"; "index.html"])
  = Some (File (Json JNull))
  /\ lookup_path
       (truncate_file Fixtures.noon Full Scenes.world
          (Scenes.me ++ ["public"; "cpu_tracker.json"]) 360 (Float 30) ["x"]).1
       (Scenes.me ++ ["public"; "cpu_tracker.json"])
     = Some (File NotJson)
  /\ lookup_path Scenes.world (Scenes.me ++ ["public"; "cpu_tracker.json"]) = None.
Proof.
  split; [|split; reflexivity].
  transitivity (lookup_path Scenes.world (Scenes.me ++ ["public"; "index.html"]));
    [|reflexivity].
  apply (history_write_touches_only_its_file Fixtures.noon Full Scenes.world
           (Scenes.me ++ ["public"; "cpu_tracker.json"]) 360 (Float 30) ["x"]
           _ (Raise OSError)); [reflexivity|].
  simpl. intros Hq. do 3 apply prefix_cons_inv_2 in Hq.
  by apply prefix_cons_inv_1 in Hq.
Defined.

(** The aggregator reads the file system through the peers' tracker files
    only. *)
Lemma visit_peer_reads_tracker float_of_str fs1 fs2 root now st peer :
  resolve fs1 (tracker_file root peer) = resolve fs2 (tracker_file root peer) ->
  visit_peer float_of_str fs1 root now st peer
  = visit_peer float_of_str fs2 root now st peer.
Proof.
  intros H. unfold visit_peer, path_exists, open_r. rewrite H.
  by destruct (resolve fs2 (tracker_file root peer)) as [[found|]|e].
Qed.

Lemma for_each_peer_reads_trackers float_of_str clock fs1 fs2 root peers :
  (forall peer, peer ∈ peers ->
     resolve fs1 (tracker_file root peer)
     = resolve fs2 (tracker_file root peer)) ->
  forall i st,
    for_each_peer float_of_str clock fs1 root i peers st
    = for_each_peer float_of_str clock fs2 root i peers st.
Proof.
  induction peers as [|p ps IH]; intros Hsame i st; simpl; [reflexivity|].
  rewrite (visit_peer_reads_tracker _ fs1 fs2) by (apply Hsame; constructor).
  destruct (visit_peer float_of_str fs2 root (clock i) st p); simpl; [|reflexivity].
  apply IH. intros peer Hin. apply Hsame. by constructor.
Qed.

(** X9. Writing the history does not disturb the aggregation: when no
    peer's tracker file lies on the way to the history file, the aggregator
    returns after the write, successful or not, what it returned before
    it. *)
Theorem aggregation_unchanged_by_history_write
    (float_of_str : string -> option float) (clock : nat -> datetime)
    (now_utc : datetime) (d : disk) (fs : node) (file_path : path)
    (max_items : Z) (new_sample : number) (active : list string)
    (fs' : node) (r : result unit) (root : path) (peers : list string) :
  truncate_file now_utc d fs file_path max_items new_sample active = (fs', r) ->
  (forall peer, peer ∈ peers -> ~ tracker_file root peer `prefix_of` file_path) ->
  get_network_cpu_mean float_of_str clock fs' root peers
  = get_network_cpu_mean float_of_str clock fs root peers.
Proof.
  intros Hrun Hapart. unfold get_network_cpu_mean.
  rewrite (for_each_peer_reads_trackers _ _ fs' fs); [reflexivity|].
  intros peer Hin. by apply (truncate_file_resolve _ _ _ _ _ _ _ _ _ _ Hrun), Hapart.
Qed.

(** ** Moving files in the tree *)

Lemma same_entry_refl a : same_entry a a.
Proof. by destruct a as [[]|]. Qed.

Lemma same_entry_trans a b c : same_entry a b -> same_entry b c -> same_entry a c.
Proof.
  destruct a as [[]|], b as [[]|], c as [[]|]; simpl; try done. congruence.
Qed.

Lemma same_entry_file a c : same_entry a (Some (File c)) -> a = Some (File c).
Proof. destruct a as [[]|]; simpl; try done. by intros ->. Qed.


(** What [Path.is_dir()] answers depends on whether the way is barred and
    on the kind of what is there. *)
Lemma same_entry_is_dir fs1 fs2 q :
  barred fs1 q = barred fs2 q ->
  same_entry (lookup_path fs1 q) (lookup_path fs2 q) ->
  is_dir fs1 q = is_dir fs2 q.
Proof.
  intros Hb. unfold is_dir, resolve. rewrite Hb.
  destruct (barred fs2 q); [reflexivity|]. simpl.
  by destruct (lookup_path fs1 q) as [[]|], (lookup_path fs2 q) as [[]|].
Qed.

Lemma is_dir_true fs q :
  is_dir fs q = Ok true ->
  barred fs q = false
  /\ ((exists r entries, lookup_path fs q = Some (Dir r entries))
      \/ (exists r names, lookup_path fs q = Some (Locked r names))).
Proof.
  unfold is_dir, resolve. destruct (barred fs q); [discriminate|]. simpl.
  destruct (lookup_path fs q) as [[c|r entries|r names]|]; try discriminate; eauto.
Qed.

Lemma is_dir_exists fs q : is_dir fs q = Ok true -> is_Some (lookup_path fs q).
Proof. intros [_ [(r & es & ->)|(r & ns & ->)]]%is_dir_true; eauto. Qed.

(** A path that can be examined lies in a directory that can be searched,
    if it lies in a directory at all. *)
Lemma examined_in_dir fs d n b r names :
  is_dir fs (d ++ [n]) = Ok b -> lookup_path fs d <> Some (Locked r names).
Proof.
  unfold is_dir, resolve. rewrite barred_snoc. intros H Hd. by rewrite Hd in H.
Qed.

Lemma assoc_remove_entry {A} k (kvs : list (string * A)) :
  assoc k (remove_entry k kvs) = None.
Proof.
  induction kvs as [|[k' v] kvs IH]; simpl; [reflexivity|].
  destruct (String.eqb k k') eqn:E; simpl; [exact IH | by rewrite E].
Qed.

Lemma assoc_remove_entry_ne {A} k k' (kvs : list (string * A)) :
  k <> k' -> assoc k (remove_entry k' kvs) = assoc k kvs.
Proof.
  intros Hne. induction kvs as [|[k0 v] kvs IH]; simpl; [reflexivity|].
  destruct (String.eqb_spec k' k0) as [->|Hk0]; simpl.
  - by apply String.eqb_neq in Hne as ->.
  - by rewrite IH.
Qed.

(** A write at [p] leaves every other path as it was: absent, the same
    file, or a directory. *)
Lemma write_path_elsewhere fs p c fs' q :
  write_path fs p c = Ok fs' -> q <> p ->
  same_entry (lookup_path fs' q) (lookup_path fs q).
Proof.
  revert fs fs' q. induction p as [|name p IH]; intros fs fs' q; simpl.
  - destruct fs as [c0| |]; [|discriminate|discriminate]. intros [= <-] Hq.
    by destruct q.
  - destruct fs as [c0|r entries|r names]; [discriminate | | discriminate].
    intros Hw Hq. destruct q as [|x q].
    { simpl. destruct (assoc name entries) as [child|].
      - destruct (write_path child p c); [|discriminate].
        simpl in Hw. by injection Hw as <-.
      - destruct p; [|discriminate]. by injection Hw as <-. }
    destruct (decide (x = name)) as [->|Hx].
    + assert (Hq' : q <> p) by congruence.
      destruct (assoc name entries) as [child|] eqn:Hchild.
      * destruct (write_path child p c) as [child'|e] eqn:Hw'; [|discriminate].
        simpl in Hw. injection Hw as <-. simpl.
        rewrite assoc_replace_entry, Hchild by eauto. by apply (IH child).
      * destruct p; [|discriminate]. injection Hw as <-. simpl.
        rewrite assoc_app_fresh, Hchild by done. by destruct q.
    + destruct (assoc name entries) as [child|] eqn:Hchild.
      * destruct (write_path child p c) as [child'|e]; [|discriminate].
        simpl in Hw. injection Hw as <-. simpl.
        rewrite assoc_replace_entry_ne by done. apply same_entry_refl.
      * destruct p; [|discriminate]. injection Hw as <-. simpl.
        rewrite assoc_app_ne by done. apply same_entry_refl.
Qed.

(** Removing the file at [p] leaves every other path as it was. *)
Lemma remove_path_elsewhere fs p c q :
  lookup_path fs p = Some (File c) -> q <> p ->
  same_entry (lookup_path (remove_path fs p) q) (lookup_path fs q).
Proof.
  revert fs q. induction p as [|name p IH]; intros fs q; simpl.
  - intros _ _. apply same_entry_refl.
  - destruct fs as [c0|r entries|r names]; [discriminate | | discriminate].
    destruct (assoc name entries) as [child|] eqn:Hchild; [|discriminate].
    intros Hfile Hq. destruct p as [|name' p].
    + simpl in Hfile. injection Hfile as ->.
      destruct q as [|x q]; [done|]. simpl.
      destruct (decide (x = name)) as [->|Hx].
      * rewrite assoc_remove_entry, Hchild. destruct q; [done|reflexivity].
      * rewrite assoc_remove_entry_ne by done. apply same_entry_refl.
    + destruct q as [|x q]; [done|]. simpl.
      destruct (decide (x = name)) as [->|Hx].
      * rewrite assoc_replace_entry, Hchild by eauto.
        apply IH; [done | congruence].
      * rewrite assoc_replace_entry_ne by done. apply same_entry_refl.
Qed.

Lemma remove_path_barred fs p c q :
  lookup_path fs p = Some (File c) ->
  barred (remove_path fs p) q = barred fs q.
Proof.
  revert fs q. induction p as [|name p IH]; intros fs q; simpl; [done|].
  destruct fs as [c0|r entries|r names]; [discriminate | | discriminate].
  destruct (assoc name entries) as [child|] eqn:Hchild; [|discriminate].
  intros Hfile. destruct p as [|name' p].
  - simpl in Hfile. injection Hfile as ->.
    destruct q as [|x q]; [done|]. simpl.
    destruct (decide (x = name)) as [->|Hx].
    + rewrite assoc_remove_entry, Hchild. by destruct q.
    + by rewrite assoc_remove_entry_ne.
  - destruct q as [|x q]; [done|]. simpl.
    destruct (decide (x = name)) as [->|Hx].
    + rewrite assoc_replace_entry, Hchild by eauto. by apply IH.
    + by rewrite assoc_replace_entry_ne.
Qed.


Lemma assoc_in_keys {A} k (v : A) kvs : assoc k kvs = Some v -> k ∈ kvs.*1.
Proof.
  induction kvs as [|[k' v'] kvs IH]; simpl; [discriminate|].
  destruct (String.eqb_spec k k') as [->|_].
  - intros _. constructor.
  - intros H. constructor. by apply IH.
Qed.

(** A file can be written into a directory that can be searched, unless a
    directory has its name. *)
Lemma write_path_into_dir fs d n c :
  is_dir fs d = Ok true -> is_dir fs (d ++ [n]) = Ok false ->
  exists fs', write_path fs (d ++ [n]) c = Ok fs'.
Proof.
  intros Hd Hn.
  destruct (is_dir_true _ _ Hd) as [_ [(r & entries & Hdir)|(r & names & Hdir)]];
    [|by destruct (examined_in_dir _ _ _ _ r names Hn)].
  unfold is_dir, resolve in Hn. rewrite barred_snoc, Hdir in Hn. simpl in Hn.
  destruct (lookup_path fs (d ++ [n])) as [[c0|r0 es0|r0 ns0]|] eqn:Hfile;
    try discriminate.
  - by apply (write_path_existing _ _ c0).
  - apply (write_path_new _ _ r entries); [done|].
    by rewrite lookup_path_snoc, Hdir in Hfile.
Qed.

Lemma new_dirs_made p : lookup_path (new_dirs p) p = Some (Dir true []).
Proof.
  induction p as [|name p IH]; simpl; [done|]. by rewrite String.eqb_refl.
Qed.

Lemma new_dirs_barred p q : barred (new_dirs p) q = false.
Proof.
  revert q. induction p as [|name p IH]; intros [|x q]; simpl; try done.
  destruct (String.eqb x name); [apply IH | done].
Qed.

(** The directory made is there, can be searched and is empty. *)
Lemma mkdir_parents_made fs p fs1 :
  mkdir_parents fs p = Ok fs1 -> lookup_path fs1 p = Some (Dir true []).
Proof.
  revert fs fs1. induction p as [|name p IH]; intros fs fs1; simpl;
    [discriminate|].
  destruct fs as [c0|r entries|r names]; [discriminate | | discriminate].
  destruct (assoc name entries) as [child|] eqn:Hchild.
  - destruct (mkdir_parents child p) as [child'|e] eqn:Hm; [|discriminate].
    simpl. intros [= <-]. simpl. rewrite assoc_replace_entry by eauto.
    by apply (IH child).
  - intros [= <-]. simpl. rewrite assoc_app_fresh by done.
    apply new_dirs_made.
Qed.

(** Creating directories leaves what exists as it was. *)
Lemma mkdir_parents_keeps fs p fs1 q :
  mkdir_parents fs p = Ok fs1 ->
  is_Some (lookup_path fs q) ->
  same_entry (lookup_path fs1 q) (lookup_path fs q).
Proof.
  revert fs fs1 q. induction p as [|name p IH]; intros fs fs1 q; simpl;
    [discriminate|].
  destruct fs as [c0|r entries|r names]; [discriminate | | discriminate].
  intros Hm Hq. destruct q as [|x q].
  { simpl. destruct (assoc name entries) as [child|].
    - destruct (mkdir_parents child p); [|discriminate].
      simpl in Hm. by injection Hm as <-.
    - by injection Hm as <-. }
  simpl in Hq. destruct (decide (x = name)) as [->|Hx].
  - destruct (assoc name entries) as [child|] eqn:Hchild;
      [|by destruct Hq as [? [=]]].
    destruct (mkdir_parents child p) as [child'|e] eqn:Hm'; [|discriminate].
    simpl in Hm. injection Hm as <-. simpl.
    rewrite assoc_replace_entry, Hchild by eauto. by apply (IH child).
  - destruct (assoc name entries) as [child|] eqn:Hchild.
    + destruct (mkdir_parents child p) as [child'|e]; [|discriminate].
      simpl in Hm. injection Hm as <-. simpl.
      rewrite assoc_replace_entry_ne by done. apply same_entry_refl.
    + injection Hm as <-. simpl.
      rewrite assoc_app_ne by done. apply same_entry_refl.
Qed.

Lemma mkdir_parents_barred fs p fs1 q :
  mkdir_parents fs p = Ok fs1 -> barred fs1 q = barred fs q.
Proof.
  revert fs fs1 q. induction p as [|name p IH]; intros fs fs1 q; simpl;
    [discriminate|].
  destruct fs as [c0|r entries|r names]; [discriminate | | discriminate].
  intros Hm. destruct q as [|x q]; [reflexivity|].
  destruct (decide (x = name)) as [->|Hx].
  - destruct (assoc name entries) as [child|] eqn:Hchild.
    + destruct (mkdir_parents child p) as [child'|e] eqn:Hm'; [|discriminate].
      simpl in Hm. injection Hm as <-. simpl.
      rewrite assoc_replace_entry, Hchild by eauto. by apply (IH child).
    + injection Hm as <-. simpl.
      rewrite assoc_app_fresh, Hchild by done. apply new_dirs_barred.
  - destruct (assoc name entries) as [child|] eqn:Hchild.
    + destruct (mkdir_parents child p) as [child'|e]; [|discriminate].
      simpl in Hm. injection Hm as <-. simpl.
      by rewrite assoc_replace_entry_ne.
    + injection Hm as <-. simpl. by rewrite assoc_app_ne.
Qed.

Section Moving.

Variable refused : refusals.
Variables (source destination : path).

(** A rename that returns has done nothing, or has written the file at
    its new place, where no directory was, and removed it from the old
    one. *)
Lemma rename_file_inv fs c src dst fs' :
  rename_file refused fs c src dst = Ok fs' ->
  fs' = fs
  \/ exists fs1,
       src <> dst
       /\ is_dir fs dst = Ok false
       /\ write_path fs dst c = Ok fs1
       /\ fs' = remove_path fs1 src.
Proof.
  unfold rename_file, is_dir, resolve.
  destruct (refused src dst); [discriminate|].
  case_bool_decide as Hsame; [intros [= <-]; by left|].
  destruct (barred fs dst); [discriminate|]. simpl.
  destruct (lookup_path fs dst) as [[]|]; try discriminate;
    destruct (write_path fs dst c) as [fs1|]; try discriminate;
    intros [= <-]; right; by exists fs1.
Qed.

Lemma rename_file_elsewhere fs c src dst fs' q :
  lookup_path fs src = Some (File c) ->
  rename_file refused fs c src dst = Ok fs' ->
  q <> src -> q <> dst ->
  same_entry (lookup_path fs' q) (lookup_path fs q).
Proof.
  intros Hsrc Hrun Hq1 Hq2.
  destruct (rename_file_inv _ _ _ _ _ Hrun) as [->|(fs1 & Hne & _ & Hw & ->)];
    [apply same_entry_refl|].
  assert (Hsrc1 : lookup_path fs1 src = Some (File c)).
  { apply same_entry_file. rewrite <- Hsrc. by apply (write_path_elsewhere _ dst c). }
  eapply same_entry_trans.
  - by apply (remove_path_elsewhere _ _ c).
  - by apply (write_path_elsewhere _ dst c).
Qed.

Lemma rename_file_barred fs c src dst fs' q :
  lookup_path fs src = Some (File c) ->
  rename_file refused fs c src dst = Ok fs' ->
  barred fs' q = barred fs q.
Proof.
  intros Hsrc Hrun.
  destruct (rename_file_inv _ _ _ _ _ Hrun) as [->|(fs1 & Hne & _ & Hw & ->)];
    [reflexivity|].
  assert (Hsrc1 : lookup_path fs1 src = Some (File c)).
  { apply same_entry_file. rewrite <- Hsrc. by apply (write_path_elsewhere _ dst c). }
  rewrite (remove_path_barred _ _ c) by done.
  by apply (write_path_barred _ dst c).
Qed.

(** An iteration that returns has left the tree alone, or has renamed the
    regular file of that name. *)
Lemma move_item_inv fs name fs' printed :
  move_item refused fs source destination name = Ok (fs', printed) ->
  fs' = fs
  \/ exists c,
       lookup_path fs (source ++ [name]) = Some (File c)
       /\ rename_file refused fs c (source ++ [name]) (destination ++ [name])
          = Ok fs'
       /\ printed = [].
Proof.
  unfold move_item, is_file.
  destruct (resolve fs (source ++ [name])) as [found|e]; simpl; [|discriminate].
  destruct found as [[c|r es|r ns]|]; try (intros [= <- _]; by left).
  destruct (lookup_path fs (source ++ [name])) as [[c'|r es|r ns]|] eqn:Hitem;
    try (intros [= <- _]; by left).
  destruct (rename_file refused fs c' _ _) as [fs1|e] eqn:Hmove;
    intros [= <- <-]; [right; by exists c' | by left].
Qed.

Lemma move_item_elsewhere fs name fs' printed q :
  move_item refused fs source destination name = Ok (fs', printed) ->
  q <> source ++ [name] -> q <> destination ++ [name] ->
  same_entry (lookup_path fs' q) (lookup_path fs q).
Proof.
  intros Hrun Hq1 Hq2.
  destruct (move_item_inv _ _ _ _ Hrun) as [->|(c & Hitem & Hmove & _)];
    [apply same_entry_refl|].
  by apply (rename_file_elsewhere _ c (source ++ [name]) (destination ++ [name])).
Qed.

Lemma move_item_barred fs name fs' printed q :
  move_item refused fs source destination name = Ok (fs', printed) ->
  barred fs' q = barred fs q.
Proof.
  intros Hrun.
  destruct (move_item_inv _ _ _ _ Hrun) as [->|(c & Hitem & Hmove & _)];
    [reflexivity|].
  by apply (rename_file_barred _ c (source ++ [name]) (destination ++ [name])).
Qed.

Lemma move_item_is_dir fs name fs' printed q :
  move_item refused fs source destination name = Ok (fs', printed) ->
  q <> source ++ [name] -> q <> destination ++ [name] ->
  is_dir fs' q = is_dir fs q.
Proof.
  intros Hrun Hq1 Hq2. apply same_entry_is_dir.
  - by apply (move_item_barred _ name _ printed).
  - by apply (move_item_elsewhere _ name _ printed).
Qed.

Lemma move_item_keeps_dirs fs name fs' printed q :
  move_item refused fs source destination name = Ok (fs', printed) ->
  is_dir fs q = Ok true -> is_dir fs' q = Ok true.
Proof.
  intros Hrun Hdir.
  destruct (move_item_inv _ _ _ _ Hrun) as [->|(c & Hitem & Hmove & _)]; [done|].
  destruct (rename_file_inv _ _ _ _ _ Hmove) as [->|(fs1 & Hne & Hfree & _)];
    [done|].
  destruct (decide (q = source ++ [name])) as [->|Hq1].
  { destruct (is_dir_true _ _ Hdir) as [_ [(r & es & H)|(r & ns & H)]]; congruence. }
  destruct (decide (q = destination ++ [name])) as [->|Hq2]; [congruence|].
  rewrite <- Hdir. by apply (move_item_is_dir _ name _ printed).
Qed.



End Moving.

Section MovingAll.

Variable refused : refusals.
Variables (source destination : path).

Lemma move_items_cons_inv fs name rest fs' r :
  move_items refused fs source destination (name :: rest) = (fs', r) ->
  (fs' = fs /\ exists e, r = Raise e)
  \/ exists fs1 printed1 r2,
       move_item refused fs source destination name = Ok (fs1, printed1)
       /\ move_items refused fs1 source destination rest = (fs', r2)
       /\ r = match r2 with
              | Ok printed2 => Ok (printed1 ++ printed2)
              | Raise e => Raise e
              end.
Proof.
  simpl.
  destruct (move_item refused fs source destination name)
    as [[fs1 printed1]|e] eqn:Hstep; [|intros [= <- <-]; left; eauto].
  destruct (move_items refused fs1 source destination rest)
    as [fs2 [printed2|e]] eqn:Hrest;
    intros [= <- <-]; right; by eexists fs1, printed1, _.
Qed.

(** What every iteration that returns preserves, the loop preserves,
    however it ends. *)
Lemma move_items_preserve (P : node -> Prop) names :
  (forall fs name fs' printed,
     name ∈ names -> P fs ->
     move_item refused fs source destination name = Ok (fs', printed) ->
     P fs') ->
  forall fs fs' r,
    move_items refused fs source destination names = (fs', r) -> P fs -> P fs'.
Proof.
  induction names as [|m rest IH]; intros Hstep fs fs' r.
  - by intros [= <- _].
  - intros [[-> _]|(fs1 & pr1 & r2 & Hm & Hrest & _)]%move_items_cons_inv HP;
      [done|].
    eapply IH; [|exact Hrest|].
    + intros fs0 n fs0' pr Hin. apply Hstep. by constructor.
    + eapply Hstep; [by constructor | exact HP | exact Hm].
Qed.

Lemma move_items_elsewhere names fs fs' r q :
  move_items refused fs source destination names = (fs', r) ->
  (forall n, n ∈ names -> q <> source ++ [n] /\ q <> destination ++ [n]) ->
  same_entry (lookup_path fs' q) (lookup_path fs q).
Proof.
  intros Hrun Hq.
  apply (move_items_preserve
           (fun x => same_entry (lookup_path x q) (lookup_path fs q))
           names) with (fs := fs) (r := r); [|exact Hrun|apply same_entry_refl].
  intros fs0 n fs0' pr Hin HP Hstep. destruct (Hq n Hin) as [Hq1 Hq2].
  eapply same_entry_trans; [|exact HP].
  by apply (move_item_elsewhere refused source destination _ n _ pr).
Qed.

Lemma move_items_barred names fs fs' r q :
  move_items refused fs source destination names = (fs', r) ->
  barred fs' q = barred fs q.
Proof.
  intros Hrun.
  apply (move_items_preserve (fun x => barred x q = barred fs q) names)
    with (fs := fs) (r := r); [|exact Hrun|reflexivity].
  intros fs0 n fs0' pr Hin HP Hstep. rewrite <- HP.
  by apply (move_item_barred refused source destination _ n _ pr).
Qed.

Lemma move_items_keep_dirs names fs fs' r q :
  move_items refused fs source destination names = (fs', r) ->
  is_dir fs q = Ok true -> is_dir fs' q = Ok true.
Proof.
  intros Hrun.
  apply (move_items_preserve (fun x => is_dir x q = Ok true) names)
    with (fs := fs) (r := r); [|exact Hrun].
  intros fs0 n fs0' pr Hin HP Hstep.
  by apply (move_item_keeps_dirs refused source destination fs0 n fs0' pr).
Qed.





End MovingAll.

(** ** [copy_html_files] *)

Lemma copy_html_files_inv refused fs source destination fs' r :
  copy_html_files refused fs source destination = (fs', r) ->
  (fs' = fs /\ exists e, r = Raise e)
  \/ exists fs1,
       is_dir fs source = Ok true
       /\ ((is_dir fs destination = Ok true /\ fs1 = fs)
           \/ (path_exists fs destination = Ok false
               /\ mkdir_parents fs destination = Ok fs1))
       /\ ((fs' = fs1 /\ exists e, r = Raise e)
           \/ exists names,
                listdir fs1 source = Ok names
                /\ move_items refused fs1 source destination names = (fs', r)).
Proof.
  unfold copy_html_files.
  destruct (is_dir fs source) as [[]|e] eqn:Hsrc; simpl;
    [|intros [= <- <-]; eauto..].
  destruct (path_exists fs destination) as [[]|e] eqn:Hex; simpl;
    [| |intros [= <- <-]; eauto].
  - destruct (is_dir fs destination) as [[]|e] eqn:Hdst; simpl;
      [|intros [= <- <-]; eauto..].
    intros Hrun. right. exists fs. split; [done|]. split; [by left|].
    destruct (listdir fs source) as [names|e]; [|injection Hrun as <- <-; eauto].
    right. by exists names.
  - destruct (mkdir_parents fs destination) as [fs1|e] eqn:Hmk;
      [|intros [= <- <-]; eauto].
    intros Hrun. right. exists fs1. split; [done|]. split; [by right|].
    destruct (listdir fs1 source) as [names|e]; [|injection Hrun as <- <-; eauto].
    right. by exists names.
Qed.

(** Once the destination is there: it is a directory, nothing that existed
    has changed, no way has been opened or barred, and the destination
    holds no directory it did not hold. *)
Lemma prepared_destination fs destination fs1 :
  (is_dir fs destination = Ok true /\ fs1 = fs)
  \/ (path_exists fs destination = Ok false
      /\ mkdir_parents fs destination = Ok fs1) ->
  is_dir fs1 destination = Ok true
  /\ (forall q, is_Some (lookup_path fs q) ->
        same_entry (lookup_path fs1 q) (lookup_path fs q))
  /\ (forall q, barred fs1 q = barred fs q)
  /\ (forall n, is_dir fs (destination ++ [n]) = Ok false ->
        is_dir fs1 (destination ++ [n]) = Ok false).
Proof.
  intros [[Hdst ->]|[Hnone Hmk]].
  - repeat split; try done. intros q _. apply same_entry_refl.
  - pose proof (mkdir_parents_made _ _ _ Hmk) as Hmade.
    repeat split.
    + unfold is_dir, resolve. rewrite (mkdir_parents_barred _ _ _ destination Hmk).
      unfold path_exists, resolve in Hnone.
      destruct (barred fs destination); [discriminate|]. by rewrite Hmade.
    + intros q Hq. by apply (mkdir_parents_keeps _ destination).
    + intros q. by apply (mkdir_parents_barred _ destination).
    + intros n _. unfold is_dir, resolve.
      by rewrite barred_snoc, lookup_path_snoc, Hmade.
Qed.

Lemma prepared_is_dir fs destination fs1 q :
  (is_dir fs destination = Ok true /\ fs1 = fs)
  \/ (path_exists fs destination = Ok false
      /\ mkdir_parents fs destination = Ok fs1) ->
  is_dir fs q = Ok true -> is_dir fs1 q = Ok true.
Proof.
  intros Hprep Hq. destruct (prepared_destination _ _ _ Hprep) as (_ & Hkeep & Hbar & _).
  rewrite <- Hq. apply same_entry_is_dir; [apply Hbar|].
  by apply Hkeep, is_dir_exists.
Qed.

(** However the call ends, every directory is still a directory; when it
    returns, the destination is one. *)
Lemma copy_html_files_dirs refused fs source destination fs' r :
  copy_html_files refused fs source destination = (fs', r) ->
  (forall q, is_dir fs q = Ok true -> is_dir fs' q = Ok true)
  /\ (forall printed, r = Ok printed -> is_dir fs' destination = Ok true).
Proof.
  intros Hrun.
  destruct (copy_html_files_inv _ _ _ _ _ _ Hrun)
    as [[-> [e ->]]|(fs1 & Hsrc & Hprep & Hend)]; [split; [done | discriminate]|].
  destruct (prepared_destination _ _ _ Hprep) as (Hdst & _).
  destruct Hend as [[-> [e ->]]|(names & _ & Hloop)].
  - split; [|discriminate]. intros q. by apply (prepared_is_dir fs destination).
  - split.
    + intros q Hq. apply (move_items_keep_dirs _ _ _ _ _ _ _ _ Hloop).
      by apply (prepared_is_dir fs destination).
    + intros _ _. by apply (move_items_keep_dirs _ _ _ _ _ _ _ _ Hloop).
Qed.






(** X13. [copy_html_files] moves nothing but the regular files directly in
    the source: however the call ends, a file that is neither directly in
    the source nor at the place of a moved file (files in subdirectories of
    the source, files elsewhere in the tree) is where it was, with its
    contents. *)
Theorem copy_leaves_other_files
    (refused : refusals) (fs : node) (source destination : path) (fs' : node)
    (r : result (list complaint)) (q : path) (c : content) :
  copy_html_files refused fs source destination = (fs', r) ->
  lookup_path fs q = Some (File c) ->
  (forall n, q <> source ++ [n]) ->
  (forall n, q <> destination ++ [n]) ->
  lookup_path fs' q = Some (File c).
Proof.
  intros Hrun Hfile Hq1 Hq2.
  destruct (copy_html_files_inv _ _ _ _ _ _ Hrun)
    as [[-> _]|(fs1 & Hsrc & Hprep & Hend)]; [done|].
  destruct (prepared_destination _ _ _ Hprep) as (_ & Hkeep & _).
  assert (Hfile1 : lookup_path fs1 q = Some (File c)).
  { apply same_entry_file. rewrite <- Hfile. apply Hkeep. rewrite Hfile. eauto. }
  destruct Hend as [[-> _]|(names & _ & Hloop)]; [done|].
  apply same_entry_file. rewrite <- Hfile1.
  apply (move_items_elsewhere _ _ _ _ _ _ _ _ Hloop). intros n _. by split.
Qed.

(** ** The script *)

Lemma collect_dirs_keeps_users fs root entries :
  forall users result x,
    collect_dirs fs root entries users = Ok result -> x ∈ users -> x ∈ result.
Proof.
  induction entries as [|e entries IH]; intros users result x; simpl.
  - by intros [= <-].
  - destruct (is_dir fs (root ++ [e])) as [[]|err]; simpl; [| |discriminate];
      intros Hrun Hx; apply (IH _ _ _ Hrun); [|done].
    apply elem_of_app. by left.
Qed.

Lemma collect_dirs_complete fs root entries :
  forall users result x,
    collect_dirs fs root entries users = Ok result ->
    x ∈ entries -> is_dir fs (root ++ [x]) = Ok true ->
    x ∈ result.
Proof.
  induction entries as [|e entries IH]; intros users result x; simpl.
  - intros _ Hx. by apply elem_of_nil in Hx.
  - intros Hrun Hx Hdir. apply elem_of_cons in Hx as [->|Hx].
    + rewrite Hdir in Hrun. simpl in Hrun.
      apply (collect_dirs_keeps_users _ _ _ _ _ _ Hrun), elem_of_app.
      right. constructor.
    + destruct (is_dir fs (root ++ [e])) as [[]|err]; simpl in Hrun;
        [| |discriminate]; by apply (IH _ _ _ Hrun).
Qed.

(** What is above a directory that can be examined is a directory that
    can be searched. *)
Lemma is_dir_above fs p n :
  is_dir fs (p ++ [n]) = Ok true ->
  exists r entries, lookup_path fs p = Some (Dir r entries).
Proof.
  intros Hdir.
  destruct (is_dir_true _ _ Hdir) as [_ Hkind]. rewrite lookup_path_snoc in Hkind.
  destruct (lookup_path fs p) as [[c|r entries|r names]|] eqn:Hp.
  - by destruct Hkind as [(? & ? & [=])|(? & ? & [=])].
  - eauto.
  - by destruct (examined_in_dir _ _ _ _ r names Hdir).
  - by destruct Hkind as [(? & ? & [=])|(? & ? & [=])].
Qed.

(** Every subdirectory of a root that can be listed is a participant. *)
Lemma network_participants_complete fs root peers x :
  network_participants fs root = Ok peers ->
  is_dir fs (root ++ [x]) = Ok true ->
  x ∈ peers.
Proof.
  unfold network_participants, listdir. intros Hrun Hdir.
  destruct (is_dir_above _ _ _ Hdir) as (r & entries & Hroot).
  rewrite (resolve_dir _ _ _ _ Hroot) in Hrun. simpl in Hrun.
  destruct r; [|discriminate].
  apply (collect_dirs_complete _ _ _ _ _ _ Hrun); [|done].
  destruct (is_dir_true _ _ Hdir) as [_ Hkind].
  rewrite lookup_path_snoc, Hroot in Hkind.
  destruct (assoc x entries) as [n|] eqn:Hn;
    [|by destruct Hkind as [(? & ? & [=])|(? & ? & [=])]].
  by apply (assoc_in_keys _ n).
Qed.

Lemma truncate_file_in_dir now_utc fs dir name max_items new_sample peers :
  is_dir fs dir = Ok true ->
  lookup_path fs (dir ++ [name]) = None ->
  exists fs',
    truncate_file now_utc Healthy fs (dir ++ [name]) max_items new_sample peers
    = (fs', Ok ())
    /\ persisted fs' (dir ++ [name])
       = Some ([sample_entry new_sample (strftime now_utc)], JStr <$> peers).
Proof.
  intros Hdir Hnone. unfold truncate_file, path_exists.
  rewrite (resolve_absent _ _ Hnone). simpl.
  rewrite open_w_dump_healthy.
  edestruct (write_path_into_dir fs dir name) as [fs' Hw]; [done | |].
  { unfold is_dir. by rewrite (resolve_absent _ _ Hnone). }
  rewrite Hw. exists fs'. split; [reflexivity|].
  unfold persisted. by rewrite (write_path_lookup _ _ _ _ Hw).
Qed.

(** X14. The script aggregates over the local host too. Once the assets
    are in place, [public] exists inside the host's own directory, so that
    directory is among the peers the enumerator returns for the directory
    above it. *)
Theorem script_enumerates_the_local_host
    (refused : refusals) (fs : node) (assets datasites : path) (host : string)
    (fs1 : node) (printed : list complaint) (peers : list string) :
  copy_html_files refused fs assets ((datasites ++ [host]) ++ ["public"])
  = (fs1, Ok printed) ->
  network_participants fs1 (parent (datasites ++ [host])) = Ok peers ->
  host ∈ peers.
Proof.
  intros Hcopy Hpeers. unfold parent in Hpeers. rewrite removelast_last in Hpeers.
  apply (network_participants_complete _ _ _ _ Hpeers).
  pose proof (proj2 (copy_html_files_dirs _ _ _ _ _ _ Hcopy) printed eq_refl)
    as Hpublic.
  destruct (is_dir_above _ _ _ Hpublic) as (r & entries & Hhost).
  unfold is_dir. by rewrite (resolve_dir _ _ _ _ Hhost).
Qed.

Section ScriptFacts.

Variable float_of_str : string -> option float.

(** X15. The script cannot fail for want of a directory to write to. When
    the assets are in place and the enumeration and the aggregation have
    returned, then on a healthy disk, with the history file absent or
    holding an object whose [items] is a list, the script returns; the
    history file then records the active peers of this run and ends with
    this run's mean, stamped with the time of the write, and holds at most
    360 samples. *)
Theorem script_records_the_run
    (refused : refusals) (clock : nat -> datetime) (now_utc : datetime)
    (fs : node) (assets datasite_path : path) (fs1 : node)
    (printed : list complaint) (peers : list string) (cpu_mean : number)
    (active : list string) :
  copy_html_files refused fs assets (datasite_path ++ ["public"])
  = (fs1, Ok printed) ->
  network_participants fs1 (parent datasite_path) = Ok peers ->
  get_network_cpu_mean float_of_str clock fs1 (parent datasite_path) peers
  = Ok (cpu_mean, active) ->
  (lookup_path fs1 (datasite_path ++ ["public"; "cpu_tracker.json"]) = None
   \/ exists kvs items,
        lookup_path fs1 (datasite_path ++ ["public"; "cpu_tracker.json"])
        = Some (File (Json (JObj kvs)))
        /\ assoc "items" kvs = Some (JArr items)) ->
  exists fs' history,
    main float_of_str refused clock now_utc Healthy fs assets datasite_path
    = (fs', Ok ())
    /\ persisted fs' (datasite_path ++ ["public"; "cpu_tracker.json"])
       = Some (history, JStr <$> active)
    /\ last history = Some (sample_entry cpu_mean (strftime now_utc))
    /\ (length history <= 360)%nat.
Proof.
  intros Hcopy Hpeers Hmean Hfile. unfold main. rewrite Hcopy, Hpeers, Hmean.
  assert (Hdir : is_dir fs1 (datasite_path ++ ["public"]) = Ok true)
    by apply (proj2 (copy_html_files_dirs _ _ _ _ _ _ Hcopy) printed eq_refl).
  assert (Hpath : datasite_path ++ ["public"; "cpu_tracker.json"]
                  = (datasite_path ++ ["public"]) ++ ["cpu_tracker.json"])
    by (by rewrite <- app_assoc).
  destruct Hfile as [Hnone|(kvs & items & Hobj & Hitems)].
  - rewrite Hpath in *.
    destruct (truncate_file_in_dir now_utc fs1 _ "cpu_tracker.json" 360 cpu_mean
                active Hdir Hnone) as (fs' & -> & Hpersisted).
    exists fs', [sample_entry cpu_mean (strftime now_utc)].
    repeat split; [done | simpl; lia].
  - destruct (truncate_file_on_object now_utc fs1 _ 360 cpu_mean active kvs items
                Hobj Hitems) as (fs' & -> & Hpersisted).
    cbv zeta in Hpersisted. rewrite capped_history in Hpersisted by lia.
    eexists fs', _. repeat split; [exact Hpersisted | |].
    + change (Z.to_nat 360) with (S 359). by rewrite lastn_snoc, last_snoc.
    + rewrite length_lastn. lia.
Qed.

End ScriptFacts.

(** ** The properties on a host *)

Lemma aggregation_unchanged_by_history_write_witness :
  get_network_cpu_mean Fixtures.no_strings Fixtures.at_noon
    (truncate_file Fixtures.noon Full Scenes.world
       (Scenes.me ++ ["public"; "cpu_tracker.json"]) 360 (Float 15) ["me"; "C"]).1
    ["datasites"] ["me"; "B"; "C"]
  = get_network_cpu_mean Fixtures.no_strings Fixtures.at_noon Scenes.world
      ["datasites"] ["me"; "B"; "C"].
Proof.
  apply (aggregation_unchanged_by_history_write Fixtures.no_strings
           Fixtures.at_noon Fixtures.noon Full Scenes.world
           (Scenes.me ++ ["public"; "cpu_tracker.json"]) 360 (Float 15)
           ["me"; "C"] _ (Raise OSError)); [reflexivity|].
  intros peer _ Hpre. apply prefix_length in Hpre. simpl in Hpre. lia.
Defined.




Lemma copy_leaves_other_files_witness :
  lookup_path
    (copy_html_files Scenes.willing Scenes.world Scenes.assets
       (Scenes.me ++ ["public"])).1
    (Scenes.assets ++ ["img"; "a.png"]) = Some (File NotJson).
Proof.
  apply (copy_leaves_other_files Scenes.willing Scenes.world Scenes.assets
           (Scenes.me ++ ["public"])
           (copy_html_files Scenes.willing Scenes.world Scenes.assets
              (Scenes.me ++ ["public"])).1
           (copy_html_files Scenes.willing Scenes.world Scenes.assets
              (Scenes.me ++ ["public"])).2
           (Scenes.assets ++ ["img"; "a.png"]) NotJson);
    [reflexivity | reflexivity | by intros n [=] | by intros n [=]].
Defined.

(** Assets that may be listed but not searched end the call at the first
    [is_file]. *)
Example copy_from_unsearchable_source :
  copy_html_files Scenes.willing
    (Dir true [("assets", Locked true ["index.html"]); ("public", Dir true [])])
    ["assets"] ["public"]
  = (Dir true [("assets", Locked true ["index.html"]); ("public", Dir true [])],
     Raise PermissionError).
Proof. reflexivity. Qed.

Lemma script_enumerates_the_local_host_witness :
  network_participants
    (copy_html_files Scenes.willing Scenes.world Scenes.assets
       (Scenes.me ++ ["public"])).1
    ["datasites"] = Ok ["me"; "B"; "C"]
  /\ "me" ∈ ["me"; "B"; "C"].
Proof.
  split; [reflexivity|].
  apply (script_enumerates_the_local_host Scenes.willing Scenes.world
           Scenes.assets ["datasites"] "me"
           (copy_html_files Scenes.willing Scenes.world Scenes.assets
              (Scenes.me ++ ["public"])).1
           [(Scenes.assets ++ ["docs"], (Scenes.me ++ ["public"]) ++ ["docs"],
             IsADirectoryError)] ["me"; "B"; "C"]); reflexivity.
Defined.

Lemma script_records_the_run_witness :
  exists fs' history,
    main Fixtures.no_strings Scenes.willing Fixtures.at_noon Fixtures.noon Healthy
      Scenes.world Scenes.assets Scenes.me = (fs', Ok ())
    /\ persisted fs' (Scenes.me ++ ["public"; "cpu_tracker.json"])
       = Some (history, JStr <$> ["me"; "C"])
    /\ last history = Some (sample_entry (Float 15) (strftime Fixtures.noon))
    /\ (length history <= 360)%nat.
Proof.
  apply (script_records_the_run Fixtures.no_strings Scenes.willing
           Fixtures.at_noon Fixtures.noon Scenes.world Scenes.assets Scenes.me
           (copy_html_files Scenes.willing Scenes.world Scenes.assets
              (Scenes.me ++ ["public"])).1
           [(Scenes.assets ++ ["docs"], (Scenes.me ++ ["public"]) ++ ["docs"],
             IsADirectoryError)] ["me"; "B"; "C"] (Float 15) ["me"; "C"]);
    [reflexivity | reflexivity | reflexivity | left; reflexivity].
Defined.
